(** * chemidr.id_map: identifier resolvers over PubChem PUG-REST and NCBI E-utilities

    A shallow embedding of [chemidr/id_map.py].  Python values are an
    inductive type, exceptions are an outcome of every call, the network
    and the clock are an explicit world that is threaded through the
    calls, and the self-recursion of the fetcher is bounded by a fuel
    argument that stands for the depth of the call stack. *)

From Stdlib Require Import String Ascii ZArith Lia Bool Arith List.
From Stdlib Require Import DecimalString.
Import ListNotations.

Local Open Scope string_scope.
Local Open Scope list_scope.
Local Open Scope nat_scope.

(** ** Exceptions and outcomes *)

(** The exceptions the module can raise, by their Python class. *)
Inductive exn : Type :=
| TypeError
| KeyError
| IndexError
| ValueError
| AttributeError
| UnboundLocalError
| JSONDecodeError
| XMLSyntaxError
| RequestException.

(** What a call does: return a value, raise, or exhaust the call stack
    it was given ([OutOfFuel]); only [__safe_urlopen__] recurses. *)
Inductive outcome (A : Type) : Type :=
| Ret (a : A)
| Raise (e : exn)
| OutOfFuel.

Arguments Ret {A} a.
Arguments Raise {A} e.
Arguments OutOfFuel {A}.

Definition obind {A B} (o : outcome A) (k : A -> outcome B) : outcome B :=
  match o with
  | Ret a => k a
  | Raise e => Raise e
  | OutOfFuel => OutOfFuel
  end.

Declare Scope py_scope.
Delimit Scope py_scope with py.
Notation "'let*' x ':=' c 'in' k" := (obind c (fun x => k))
  (at level 10, x name, c at level 100, k at level 200) : py_scope.

(** ** The batcher *)

Module Numpy.

(** [numpy.cumsum] on a one-dimensional array of naturals. *)
Fixpoint cumsum_from (acc : nat) (l : list nat) : list nat :=
  match l with
  | [] => []
  | x :: xs => (acc + x) :: cumsum_from (acc + x) xs
  end.

Definition cumsum (l : list nat) : list nat := cumsum_from 0 l.

(** The slice [sary[st:end]] with [0 <= st] and [0 <= end]. *)
Definition slice {A} (sary : list A) (st en : nat) : list A :=
  firstn (en - st) (skipn st sary).

(** [numpy.array_split(ary, Nsections)] for a scalar section count, on
    axis 0:
<<
    Nsections = int(indices_or_sections)
    if Nsections <= 0:
        raise ValueError('number sections must be larger than 0.')
    Neach_section, extras = divmod(Ntotal, Nsections)
    section_sizes = ([0] + extras * [Neach_section+1] +
                     (Nsections-extras) * [Neach_section])
    div_points = _nx.array(section_sizes, dtype=_nx.intp).cumsum()
    sub_arys = []
    for i in range(Nsections):
        st = div_points[i]; end = div_points[i + 1]
        sub_arys.append(sary[st:end])
>>
 *)
Definition section_sizes (Ntotal Nsections : nat) : list nat :=
  let Neach_section := Ntotal / Nsections in
  let extras := Ntotal mod Nsections in
  [0] ++ repeat (Neach_section + 1) extras
      ++ repeat Neach_section (Nsections - extras).

Definition array_split {A} (ary : list A) (Nsections : nat)
  : outcome (list (list A)) :=
  if Nsections <=? 0 then Raise ValueError
  else
    let Ntotal := length ary in
    let div_points := cumsum (section_sizes Ntotal Nsections) in
    Ret (map (fun i => slice ary (nth i div_points 0) (nth (i + 1) div_points 0))
             (seq 0 Nsections)).

End Numpy.

(** [int(math.ceil(len(ids) / 100))].  The quotient is a float in Python;
    for every length a list can have (far below 2^53 / 100) the float
    quotient is within rounding of the exact one and its ceiling is the
    integer ceiling computed here. *)
Definition num_divisions_of (len : nat) : nat :=
  if len mod 100 =? 0 then len / 100 else len / 100 + 1.

(** [__divide_list__(ids)]: [np.asarray] and [np.ndarray.tolist] are the
    identity on a flat list of strings, so the chunks are the sub-arrays
    of [np.array_split] as lists. *)
Definition __divide_list__ {A} (ids : list A) : outcome (list (list A)) :=
  let num_divisions := num_divisions_of (length ids) in
  (let* split_ids := Numpy.array_split ids num_divisions in
   Ret (map (fun i => nth i split_ids []) (seq 0 (length split_ids))))%py.

(** The chunks cut off a list by a list of sizes, front to back. *)
Fixpoint split_sizes {A} (sizes : list nat) (l : list A) : list (list A) :=
  match sizes with
  | [] => []
  | s :: rest => firstn s l :: split_sizes rest (skipn s l)
  end.

(** The sizes [np.array_split] gives to [k] sections of [n] elements. *)
Definition chunk_sizes (n k : nat) : list nat :=
  repeat (n / k + 1) (n mod k) ++ repeat (n / k) (k - n mod k).

(** ** Python values *)

(** A binary float: not-a-number, an infinity, or [m * 2^e]. *)
Inductive pyfloat : Type :=
| FNan
| FInf (negative : bool)
| FFin (m e : Z).

(** The values the module handles: what [json.loads] produces, the
    text nodes of lxml, and [np.nan].  A dict is its items in insertion
    order, keys pairwise different. *)
#[warnings="-register-all"]
Inductive pyval : Type :=
| PNone
| PBool (b : bool)
| PInt (z : Z)
| PFloat (f : pyfloat)
| PStr (s : string)
| PList (l : list pyval)
| PDict (d : list (pyval * pyval)).

(** [np.nan], the module's marker for a missing value. *)
Definition np_nan : pyval := PFloat FNan.

(** The number a bool, int or finite float stands for, as [m * 2^e]. *)
Definition dyadic_of (v : pyval) : option (Z * Z) :=
  match v with
  | PBool b => Some (if b then 1%Z else 0%Z, 0%Z)
  | PInt z => Some (z, 0%Z)
  | PFloat (FFin m e) => Some (m, e)
  | _ => None
  end.

Definition dyadic_eqb (x y : Z * Z) : bool :=
  let '(m, e) := x in
  let '(m', e') := y in
  if (e <=? e')%Z then (m =? m' * 2 ^ (e' - e))%Z
  else (m * 2 ^ (e - e') =? m')%Z.

(** [v == k] where [k] is a scalar: the module only ever compares with
    the int [0], a str key, or a hashable dict key.  Numbers compare by
    value across bool, int and float; nan equals nothing, itself
    included; a container never equals a scalar. *)
Definition py_eq (v k : pyval) : bool :=
  match dyadic_of v, dyadic_of k with
  | Some x, Some y => dyadic_eqb x y
  | _, _ =>
      match v, k with
      | PNone, PNone => true
      | PStr s, PStr s' => String.eqb s s'
      | PFloat (FInf b), PFloat (FInf b') => Bool.eqb b b'
      | _, _ => false
      end
  end.

Definition hashable (v : pyval) : bool :=
  match v with
  | PList _ | PDict _ => false
  | _ => true
  end.

Definition is_nan (v : pyval) : bool :=
  match v with
  | PFloat FNan => true
  | _ => false
  end.

(** The test by which a dict finds a key: [k' is k or k' == k].  A value
    of the scalar types is equal to itself unless it is nan, so identity
    adds one case to [==]: the same nan object.  The keys of the module's
    dicts are values that [json.loads] decoded, and every nan it decodes
    is the one object [json.decoder.NaN]; two nan keys are therefore the
    same key.  ([np.nan] is another object, and is never used as a key.) *)
Definition key_match (k' k : pyval) : bool :=
  py_eq k' k || (is_nan k' && is_nan k).

Fixpoint dict_lookup (k : pyval) (d : list (pyval * pyval)) : option pyval :=
  match d with
  | [] => None
  | (k', v) :: d' => if key_match k' k then Some v else dict_lookup k d'
  end.

(** [d[k] = v]: an existing key keeps its place, a new one goes last. *)
Fixpoint dict_set (k v : pyval) (d : list (pyval * pyval))
  : list (pyval * pyval) :=
  match d with
  | [] => [(k, v)]
  | (k', v') :: d' =>
      if key_match k' k then (k', v) :: d' else (k', v') :: dict_set k v d'
  end.

(** [d.update(new)]. *)
Definition dict_update (d new : list (pyval * pyval)) : list (pyval * pyval) :=
  fold_left (fun acc kv => dict_set (fst kv) (snd kv) acc) new d.

(** [l[i]] on a sequence, negative indices counted from the end. *)
Definition seq_index {A} (l : list A) (i : Z) : outcome A :=
  let n := Z.of_nat (length l) in
  let j := if (i <? 0)%Z then (i + n)%Z else i in
  if ((j <? 0) || (n <=? j))%Z then Raise IndexError
  else match nth_error l (Z.to_nat j) with
       | Some x => Ret x
       | None => Raise IndexError
       end.

Fixpoint chars (s : string) : list string :=
  match s with
  | EmptyString => []
  | String c rest => String c EmptyString :: chars rest
  end.

(** [obj[key]]. *)
Definition py_getitem (obj key : pyval) : outcome pyval :=
  match obj with
  | PDict d =>
      if hashable key then
        match dict_lookup key d with
        | Some v => Ret v
        | None => Raise KeyError
        end
      else Raise TypeError
  | PList l =>
      match key with
      | PInt i => seq_index l i
      | PBool b => seq_index l (if b then 1%Z else 0%Z)
      | _ => Raise TypeError
      end
  | PStr s =>
      match key with
      | PInt i => obind (seq_index (chars s) i) (fun c => Ret (PStr c))
      | PBool b =>
          obind (seq_index (chars s) (if b then 1%Z else 0%Z))
                (fun c => Ret (PStr c))
      | _ => Raise TypeError
      end
  | _ => Raise TypeError
  end.

(** The elements [for p in obj] runs over. *)
Definition py_iter (obj : pyval) : outcome (list pyval) :=
  match obj with
  | PList l => Ret l
  | PDict d => Ret (map fst d)
  | PStr s => Ret (map PStr (chars s))
  | _ => Raise TypeError
  end.

Fixpoint is_prefix (p s : string) : bool :=
  match p, s with
  | EmptyString, _ => true
  | String a p', String b s' => Ascii.eqb a b && is_prefix p' s'
  | String _ _, EmptyString => false
  end.

Fixpoint is_substring (p s : string) : bool :=
  is_prefix p s ||
  match s with
  | EmptyString => false
  | String _ s' => is_substring p s'
  end.

(** [key in obj]. *)
Definition py_contains (key obj : pyval) : outcome bool :=
  match obj with
  | PDict d =>
      if hashable key then
        Ret (match dict_lookup key d with Some _ => true | None => false end)
      else Raise TypeError
  | PList l => Ret (existsb (fun x => py_eq x key) l)
  | PStr s =>
      match key with
      | PStr k => Ret (is_substring k s)
      | _ => Raise TypeError
      end
  | _ => Raise TypeError
  end.

(** [s.split(sep)] for a one-character separator. *)
Fixpoint str_split (sep : ascii) (s : string) : list string :=
  match s with
  | EmptyString => [EmptyString]
  | String c rest =>
      if Ascii.eqb c sep then EmptyString :: str_split sep rest
      else match str_split sep rest with
           | [] => [String c EmptyString]
           | w :: ws => String c w :: ws
           end
  end.

(** [ikey.split('-')], a method of str only. *)
Definition py_split_hyphen (ikey : pyval) : outcome pyval :=
  match ikey with
  | PStr s => Ret (PList (map PStr (str_split "-"%char s)))
  | _ => Raise AttributeError
  end.

(** [sep.join(parts)]. *)
Fixpoint str_join (sep : string) (parts : list string) : string :=
  match parts with
  | [] => EmptyString
  | [x] => x
  | x :: rest => String.append x (String.append sep (str_join sep rest))
  end.

(** [str(int(i))] for an int. *)
Definition py_str_int (z : Z) : string := NilZero.string_of_int (Z.to_int z).

(** ** The libraries the module calls *)

(** A [requests.Response]: the fields the module reads. *)
Record Response : Type := mkResponse {
  status_code : Z;
  content : string
}.

(** The outside of the module: the network behind [requests.get], the
    clock behind [time.sleep], the decoder [json.loads], and lxml's
    [etree.fromstring], [findall] and [xpath].  Every theorem below holds
    for any behaviour of these. *)
Class Platform : Type := {
  World : Type;
  Element : Type;
  (** [requests.get(url)]: a response, an exception, and the world after. *)
  requests_get : string -> World -> outcome Response * World;
  (** [time.sleep(d)], the duration in milliseconds. *)
  time_sleep : N -> World -> World;
  (** [json.loads(body)] on bytes. *)
  json_loads : string -> outcome pyval;
  (** [etree.fromstring(xml)]. *)
  etree_fromstring : string -> outcome Element;
  (** [element.findall(path)]. *)
  findall : Element -> string -> list Element;
  (** [element.xpath(path)] for a path that selects text nodes. *)
  xpath : Element -> string -> list string;
  (** [str(v)] inside an f-string, for a float or a container. *)
  repr_other : pyval -> string
}.

(** [f'{v}']. *)
Definition py_format `{Platform} (v : pyval) : string :=
  match v with
  | PStr s => s
  | PInt z => py_str_int z
  | PBool true => "True"
  | PBool false => "False"
  | PNone => "None"
  | _ => repr_other v
  end.

(** ** Calls that act on the world *)

Definition M `{Platform} (A : Type) : Type := World -> outcome A * World.

Definition ret `{Platform} {A} (a : A) : M A := fun w => (Ret a, w).

Definition bind `{Platform} {A B} (c : M A) (k : A -> M B) : M B :=
  fun w =>
    match c w with
    | (Ret a, w') => k a w'
    | (Raise e, w') => (Raise e, w')
    | (OutOfFuel, w') => (OutOfFuel, w')
    end.

(** A call that does not touch the world. *)
Definition lift `{Platform} {A} (o : outcome A) : M A := fun w => (o, w).

Definition sleep `{Platform} (ms : N) : M unit :=
  fun w => (Ret tt, time_sleep ms w).

Notation "x <- c ;; k" := (bind c (fun x => k))
  (at level 61, c at next level, right associativity) : py_scope.
Notation "c ;; k" := (bind c (fun _ => k))
  (at level 61, right associativity) : py_scope.

Local Open Scope py_scope.

(** [for x in xs: s = body(s, x)]. *)
Fixpoint for_each `{Platform} {S X} (xs : list X) (body : S -> X -> M S)
  (s : S) : M S :=
  match xs with
  | [] => ret s
  | x :: xs' => s' <- body s x ;; for_each xs' body s'
  end.

(** ** The fetcher *)

(** [__safe_urlopen__(url)], [fuel] calls deep.  The value is the body
    ([Some]) or Python's [None]; a status that no branch names falls off
    the end of the function, which returns [None] too. *)
Fixpoint __safe_urlopen__ `{Platform} (fuel : nat) (url : string)
  : M (option string) :=
  match fuel with
  | O => lift OutOfFuel
  | S fuel' =>
      response <- requests_get url ;;
      if (status_code response =? 200)%Z then
        ret (Some (content response))
      else if (status_code response =? 429)%Z then
        sleep 500 ;; __safe_urlopen__ fuel' url
      else if (status_code response =? 503)%Z then
        sleep 1000 ;; __safe_urlopen__ fuel' url
      else if (status_code response =? 404)%Z then
        ret None
      else
        ret None
  end.

(** ** The property resolvers *)

(** [__safe_object_access__(obj, key)]. *)
Definition __safe_object_access__ (obj key : pyval) : outcome pyval :=
  (let* present := py_contains key obj in
   if (present : bool) then py_getitem obj key else Ret np_nan)%py.

(** [json.loads(r)]; [r] may be [None], which [json.loads] refuses. *)
Definition json_loads_opt `{Platform} (r : option string) : outcome pyval :=
  match r with
  | Some body => json_loads body
  | None => Raise TypeError
  end.

(** The iterable of both comprehensions:
    [json.loads(r)['PropertyTable']['Properties']], then its elements. *)
Definition properties `{Platform} (r : option string) : outcome (list pyval) :=
  (let* j := json_loads_opt r in
   let* table := py_getitem j (PStr "PropertyTable") in
   let* props := py_getitem table (PStr "Properties") in
   py_iter props)%py.

(** [{key(p) : value(p) for p in ps}]: key before value, then the store,
    which needs a hashable key. *)
Fixpoint dict_comprehension {X} (key value : X -> outcome pyval)
  (ps : list X) (acc : list (pyval * pyval))
  : outcome (list (pyval * pyval)) :=
  match ps with
  | [] => Ret acc
  | p :: ps' =>
      (let* k := key p in
       let* v := value p in
       if hashable k then dict_comprehension key value ps' (dict_set k v acc)
       else Raise TypeError)%py
  end.

(** [[value(p) for p in ps]]. *)
Fixpoint list_comprehension {X} (value : X -> outcome pyval)
  (ps : list X) : outcome (list pyval) :=
  match ps with
  | [] => Ret []
  | p :: ps' =>
      (let* v := value p in
       let* vs := list_comprehension value ps' in
       Ret (v :: vs))%py
  end.

(** [acc.update(new_dict)] and [acc += new_list] on the accumulator. *)
Definition py_update (acc : pyval) (new_dict : list (pyval * pyval))
  : outcome pyval :=
  match acc with
  | PDict d => Ret (PDict (dict_update d new_dict))
  | _ => Raise AttributeError
  end.

Definition py_iadd (acc : pyval) (new_list : list pyval) : outcome pyval :=
  match acc with
  | PList l => Ret (PList (l ++ new_list))
  | _ => Raise TypeError
  end.

Definition pubchem_cid_url (ids : list string) (property : string) : string :=
  String.append "https://pubchem.ncbi.nlm.nih.gov/rest/pug/compound/cid/"
    (String.append (str_join "," ids)
       (String.append "/property/" (String.append property "/JSON"))).

(** The body of the loop of [cids2inchis], lines 39 to 65. *)
Definition cids2inchis_step `{Platform} (fuel : nat) (as_dict keys : bool)
  (inchikeys : pyval) (ids : list string) : M pyval :=
  let query_type := if keys then "InChIKey" else "InChI" in
  let url := pubchem_cid_url ids query_type in
  r <- __safe_urlopen__ fuel url ;;
  if as_dict then
    ps <- lift (properties r) ;;
    new_dict <- lift (dict_comprehension
                        (fun p => py_getitem p (PStr "CID"))
                        (fun p => py_getitem p (PStr query_type)) ps []) ;;
    lift (py_update inchikeys new_dict)
  else
    ps <- lift (properties r) ;;
    new_list <- lift (list_comprehension
                        (fun p => py_getitem p (PStr query_type)) ps) ;;
    lift (py_iadd inchikeys new_list).

(** [ikey.split('-')[0]]. *)
Definition inchikey_prefix (ikey : pyval) : outcome pyval :=
  (let* parts := py_split_hyphen ikey in py_getitem parts (PInt 0))%py.

(** Lines 67 to 69: the [use_prefix] pass over the result. *)
Definition take_prefixes (inchikeys : pyval) : outcome pyval :=
  match inchikeys with
  | PDict items =>
      (let* d := dict_comprehension (fun kv => Ret (fst kv))
                   (fun kv => inchikey_prefix (snd kv)) items [] in
       Ret (PDict d))%py
  | _ =>
      (let* ikeys := py_iter inchikeys in
       let* l := list_comprehension inchikey_prefix ikeys in
       Ret (PList l))%py
  end.

(** The loop of [cids2inchis], before the [use_prefix] pass. *)
Definition cids2inchis_loop `{Platform} (fuel : nat) (cids : list Z)
  (as_dict keys : bool) : M pyval :=
  cids <- lift (__divide_list__ (map py_str_int cids)) ;;
  let inchikeys := if as_dict then PDict [] else PList [] in
  for_each cids (cids2inchis_step fuel as_dict keys) inchikeys.

(** [cids2inchis(cids, as_dict, use_prefix, keys)]. *)
Definition cids2inchis `{Platform} (fuel : nat) (cids : list Z)
  (as_dict use_prefix keys : bool) : M pyval :=
  inchikeys <- cids2inchis_loop fuel cids as_dict keys ;;
  if use_prefix then lift (take_prefixes inchikeys) else ret inchikeys.

(** The body of the loop of [cids2upacs], lines 88 to 107. *)
Definition cids2upacs_step `{Platform} (fuel : nat) (as_dict : bool)
  (upacs : pyval) (ids : list string) : M pyval :=
  let url := pubchem_cid_url ids "IUPACName" in
  r <- __safe_urlopen__ fuel url ;;
  if as_dict then
    ps <- lift (properties r) ;;
    new_dict <- lift (dict_comprehension
                        (fun p => py_getitem p (PStr "CID"))
                        (fun p => __safe_object_access__ p (PStr "IUPACName"))
                        ps []) ;;
    lift (py_update upacs new_dict)
  else
    ps <- lift (properties r) ;;
    new_list <- lift (list_comprehension
                        (fun p => __safe_object_access__ p (PStr "IUPACName"))
                        ps) ;;
    lift (py_iadd upacs new_list).

(** [cids2upacs(cids, as_dict)]. *)
Definition cids2upacs `{Platform} (fuel : nat) (cids : list Z)
  (as_dict : bool) : M pyval :=
  cids <- lift (__divide_list__ (map py_str_int cids)) ;;
  let upacs := if as_dict then PDict [] else PList [] in
  for_each cids (cids2upacs_step fuel as_dict) upacs.

(** ** cid2smile *)

Definition smiles_url (cid : string) : string :=
  String.append "https://pubchem.ncbi.nlm.nih.gov/rest/pug/compound/cid/"
    (String.append cid "/property/CanonicalSMILES/XML").

Definition smiles_path : string :=
  ".//{http://pubchem.ncbi.nlm.nih.gov/pug_rest}CanonicalSMILES".

(** [cid2smile(cid)]. *)
Definition cid2smile `{Platform} (fuel : nat) (cid : string) : M pyval :=
  let url := smiles_url cid in
  xml <- __safe_urlopen__ fuel url ;;
  match xml with
  | None => ret np_nan
  | Some xml =>
      root <- lift (etree_fromstring xml) ;;
      element <- lift (seq_index (findall root smiles_path) 0) ;;
      SMILE <- lift (seq_index (xpath element ".//text()") 0) ;;
      ret (PStr SMILE)
  end.

(** ** mesh2pid *)

Definition esearch_url (mesh : string) : string :=
  String.append
    "https://eutils.ncbi.nlm.nih.gov/entrez/eutils/esearch.fcgi?db=pcsubstance&term="
    (String.append mesh "&retmode=json").

Definition substance_url `{Platform} (sid : pyval) : string :=
  String.append "https://pubchem.ncbi.nlm.nih.gov/rest/pug/substance/sid/"
    (String.append (py_format sid) "/xml").

Definition cid_path : string :=
  ".//{http://www.ncbi.nlm.nih.gov}PC-CompoundType_id_cid".

(** [{mesh : {'mesh' : mesh, 'sid' : sid, 'cid' : cid}}]. *)
Definition mesh_record (mesh : string) (sid cid : pyval) : pyval :=
  PDict [(PStr mesh,
          PDict [(PStr "mesh", PStr mesh); (PStr "sid", sid); (PStr "cid", cid)])].

(** [mesh2pid(mesh)].  On line 213 the local [cid] has not been assigned
    yet, so reading it raises [UnboundLocalError]. *)
Definition mesh2pid `{Platform} (fuel : nat) (mesh : string) : M pyval :=
  let url := esearch_url mesh in
  r <- __safe_urlopen__ fuel url ;;
  match r with
  | Some r =>
      j <- lift (json_loads r) ;;
      esearchresult <- lift (py_getitem j (PStr "esearchresult")) ;;
      count <- lift (py_getitem esearchresult (PStr "count")) ;;
      if negb (py_eq count (PInt 0)) then
        esearchresult <- lift (py_getitem j (PStr "esearchresult")) ;;
        idlist <- lift (py_getitem esearchresult (PStr "idlist")) ;;
        sid <- lift (py_getitem idlist (PInt 0)) ;;
        let url := substance_url sid in
        xml <- __safe_urlopen__ fuel url ;;
        match xml with
        | None => lift (Raise UnboundLocalError)
        | Some xml =>
            root <- lift (etree_fromstring xml) ;;
            let cids := findall root cid_path in
            cid <- (if 0 <? length cids then
                      first <- lift (seq_index cids 0) ;;
                      text <- lift (seq_index (xpath first "./text()") 0) ;;
                      ret (PStr text)
                    else ret np_nan) ;;
            ret (mesh_record mesh sid cid)
        end
      else
        ret (mesh_record mesh np_nan np_nan)
  | None =>
      ret (mesh_record mesh np_nan np_nan)
  end.

(** ** A scripted platform

    A small instance of [Platform] on which the resolvers run: a server
    that answers each URL from a script and, once the script of a URL is
    used up, with a steady answer; a clock that adds up the sleeps; and
    decoders that are finite tables from bodies to decoded values. *)
Module Mock.

#[warnings="-register-all"]
Inductive xml : Type :=
| XNode (tag : string) (text : list string) (children : list xml).

Definition tag_of (e : xml) : string :=
  match e with XNode t _ _ => t end.

Definition text_of (e : xml) : list string :=
  match e with XNode _ t _ => t end.

(** The elements below [e], in document order. *)
Fixpoint descendants (e : xml) : list xml :=
  match e with
  | XNode _ _ children =>
      flat_map (fun c => c :: descendants c) children
  end.

(** [findall] for a path [.//tag]. *)
Definition xml_findall (e : xml) (path : string) : list xml :=
  filter (fun d => String.eqb path (String.append ".//" (tag_of d)))
         (descendants e).

(** [xpath] for the two text paths the module uses. *)
Definition xml_xpath (e : xml) (path : string) : list string :=
  if String.eqb path "./text()" then text_of e
  else if String.eqb path ".//text()" then
    text_of e ++ flat_map text_of (descendants e)
  else [].

Record world : Type := mkWorld {
  pending : list (string * list Response);
  steady : string -> Response;
  clock : N;
  requests : nat
}.

Fixpoint pop (url : string) (p : list (string * list Response))
  : option (Response * list (string * list Response)) :=
  match p with
  | [] => None
  | (u, rs) :: p' =>
      if String.eqb u url then
        match rs with
        | r :: rs' => Some (r, (u, rs') :: p')
        | [] => None
        end
      else
        match pop url p' with
        | Some (r, p'') => Some (r, (u, rs) :: p'')
        | None => None
        end
  end.

Definition get (url : string) (w : world) : outcome Response * world :=
  match pop url (pending w) with
  | Some (r, p) => (Ret r, mkWorld p (steady w) (clock w) (S (requests w)))
  | None =>
      (Ret (steady w url),
       mkWorld (pending w) (steady w) (clock w) (S (requests w)))
  end.

Definition sleep (ms : N) (w : world) : world :=
  mkWorld (pending w) (steady w) (clock w + ms)%N (requests w).

Fixpoint decode {A} (err : exn) (table : list (string * A)) (body : string)
  : outcome A :=
  match table with
  | [] => Raise err
  | (b, v) :: table' =>
      if String.eqb b body then Ret v else decode err table' body
  end.

Definition platform (json_table : list (string * pyval))
  (xml_table : list (string * xml)) : Platform :=
  {| World := world;
     Element := xml;
     requests_get := get;
     time_sleep := sleep;
     json_loads := decode JSONDecodeError json_table;
     etree_fromstring := decode XMLSyntaxError xml_table;
     findall := xml_findall;
     xpath := xml_xpath;
     repr_other := fun _ => "?" |}.

Definition not_found : Response := mkResponse 404 EmptyString.

(** A server with the given scripts that answers 404 otherwise. *)
Definition server (scripts : list (string * list Response)) : world :=
  mkWorld scripts (fun _ => not_found) 0 0.

End Mock.

(** ** Vocabulary of the statements *)

(** The sleep, in milliseconds, before the retry a status asks for. *)
Definition retry_delay (status : Z) : option N :=
  if (status =? 429)%Z then Some 500%N
  else if (status =? 503)%Z then Some 1000%N
  else None.

(** [busy_run url w delays w']: from [w], the server answers [url] with a
    429 or 503 as many times as [delays] is long; after each of them the
    fetcher sleeps the matching delay, and [w'] is the world after the
    last sleep. *)
Inductive busy_run `{Platform} (url : string)
  : World -> list N -> World -> Prop :=
| busy_done (w : World) : busy_run url w [] w
| busy_retry (w w1 w2 : World) (r : Response) (d : N) (ds : list N) :
    requests_get url w = (Ret r, w1) ->
    retry_delay (status_code r) = Some d ->
    busy_run url (time_sleep d w1) ds w2 ->
    busy_run url w (d :: ds) w2.

(** The part of [s] before its first [sep]; all of [s] if it has none. *)
Fixpoint before_first (sep : ascii) (s : string) : string :=
  match s with
  | EmptyString => EmptyString
  | String c rest =>
      if Ascii.eqb c sep then EmptyString else String c (before_first sep rest)
  end.

(** An InChIKey cut to the substring before its first hyphen. *)
Definition truncate_key (ikey : pyval) : pyval :=
  match ikey with
  | PStr s => PStr (before_first "-"%char s)
  | _ => ikey
  end.

(** The values of a result of either shape. *)
Definition values_of (result : pyval) : list pyval :=
  match result with
  | PList l => l
  | PDict d => map snd d
  | _ => []
  end.

(** [f] applied to each value of a result of either shape; the keys of a
    dict and the order stay. *)
Definition map_values (f : pyval -> pyval) (result : pyval) : pyval :=
  match result with
  | PList l => PList (map f l)
  | PDict d => PDict (map (fun kv => (fst kv, f (snd kv))) d)
  | _ => result
  end.

(** What every dict built by the module satisfies: keys are hashable and
    no key matches an earlier one. *)
Inductive dict_wf : list (pyval * pyval) -> Prop :=
| dict_wf_nil : dict_wf []
| dict_wf_snoc (d : list (pyval * pyval)) (k v : pyval) :
    dict_wf d ->
    hashable k = true ->
    Forall (fun kv => key_match (fst kv) k = false) d ->
    dict_wf (d ++ [(k, v)]).

Definition result_wf (result : pyval) : Prop :=
  match result with
  | PDict d => dict_wf d
  | PList _ => True
  | _ => False
  end.

Definition is_str (v : pyval) : Prop := exists s, v = PStr s.

Definition hyphen_free (s : string) : Prop :=
  ~ In "-"%char (list_ascii_of_string s).

(** The decoded body of a property query: the envelope around the
    per-compound objects.  The bodies below are written with single
    quotes; the scripted decoder maps each to its decoded value. *)
Definition property_table (properties : list pyval) : pyval :=
  PDict [(PStr "PropertyTable", PDict [(PStr "Properties", PList properties)])].

Definition inchikey_body : string :=
  "{'PropertyTable': {'Properties': [{'CID': 1, 'InChIKey': 'ABCDEF-UHFFFAOYSA-N'}, {'CID': 2, 'InChIKey': 'XYZ'}]}}".

Definition plain_body : string :=
  "{'PropertyTable': {'Properties': [{'CID': 2, 'InChIKey': 'XYZ'}]}}".

Definition inchikey_json : list (string * pyval) :=
  [(inchikey_body,
    property_table
      [PDict [(PStr "CID", PInt 1); (PStr "InChIKey", PStr "ABCDEF-UHFFFAOYSA-N")];
       PDict [(PStr "CID", PInt 2); (PStr "InChIKey", PStr "XYZ")]]);
   (plain_body,
    property_table
      [PDict [(PStr "CID", PInt 2); (PStr "InChIKey", PStr "XYZ")]])].

(** A server that knows the InChIKeys of compounds 1 and 2. *)
Definition inchikey_server : Mock.world :=
  Mock.server [(pubchem_cid_url ["1"; "2"] "InChIKey",
                [mkResponse 200 inchikey_body]);
               (pubchem_cid_url ["2"] "InChIKey",
                [mkResponse 200 plain_body])].

(** The same server after the query for compounds 1 and 2, and after the
    query for compound 2. *)
Definition inchikey_server_after_both : Mock.world :=
  Mock.mkWorld [(pubchem_cid_url ["1"; "2"] "InChIKey", []);
                (pubchem_cid_url ["2"] "InChIKey",
                 [mkResponse 200 plain_body])]
               (fun _ => Mock.not_found) 0 1.

Definition inchikey_server_after_2 : Mock.world :=
  Mock.mkWorld [(pubchem_cid_url ["1"; "2"] "InChIKey",
                 [mkResponse 200 inchikey_body]);
                (pubchem_cid_url ["2"] "InChIKey", [])]
               (fun _ => Mock.not_found) 0 1.

(** Scripted data for [cid2smile]: ethanol, and a document without the
    SMILES element. *)
Definition pug (local : string) : string :=
  String.append "{http://pubchem.ncbi.nlm.nih.gov/pug_rest}" local.

Definition ethanol_body : string :=
  "<PropertyTable><Properties><CID>702</CID><CanonicalSMILES>CCO</CanonicalSMILES></Properties></PropertyTable>".

Definition bare_body : string :=
  "<PropertyTable><Properties><CID>702</CID></Properties></PropertyTable>".

Definition ethanol_xml : Mock.xml :=
  Mock.XNode (pug "PropertyTable") []
    [Mock.XNode (pug "Properties") []
       [Mock.XNode (pug "CID") ["702"] [];
        Mock.XNode (pug "CanonicalSMILES") ["CCO"] []]].

Definition bare_xml : Mock.xml :=
  Mock.XNode (pug "PropertyTable") []
    [Mock.XNode (pug "Properties") [] [Mock.XNode (pug "CID") ["702"] []]].

Definition smiles_xml : list (string * Mock.xml) :=
  [(ethanol_body, ethanol_xml); (bare_body, bare_xml)].

(** Scripted data for [mesh2pid]: a search without results, and a search
    that finds substance 123 whose record the server does not have. *)
Definition esearch_result (count : pyval) (idlist : list pyval) : pyval :=
  PDict [(PStr "esearchresult",
          PDict [(PStr "count", count); (PStr "idlist", PList idlist)])].

Definition no_hits_body : string :=
  "{'esearchresult': {'count': 0, 'idlist': []}}".

Definition one_hit_body : string :=
  "{'esearchresult': {'count': '1', 'idlist': ['123']}}".

Definition esearch_json : list (string * pyval) :=
  [(no_hits_body, esearch_result (PInt 0) []);
   (one_hit_body, esearch_result (PStr "1") [PStr "123"])].

Definition esearch_server : Mock.world :=
  Mock.server [(esearch_url "nonexistent-term", [mkResponse 200 no_hits_body]);
               (esearch_url "aspirin", [mkResponse 200 one_hit_body])].

(** A search answer that gives its count as the string ['0']. *)
Definition string_zero_body : string :=
  "{'esearchresult': {'count': '0', 'idlist': []}}".

Definition string_zero_json : list (string * pyval) :=
  [(string_zero_body, esearch_result (PStr "0") [])].

(** Scripted data for the property resolvers: compound 5 without the
    requested property. *)
Definition missing_body : string :=
  "{'PropertyTable': {'Properties': [{'CID': 5}]}}".

Definition missing_json : list (string * pyval) :=
  [(missing_body, property_table [PDict [(PStr "CID", PInt 5)]])].

Definition missing_server : Mock.world :=
  Mock.server [(pubchem_cid_url ["5"] "IUPACName", [mkResponse 200 missing_body]);
               (pubchem_cid_url ["5"] "InChIKey", [mkResponse 200 missing_body]);
               (pubchem_cid_url ["5"] "InChI", [mkResponse 200 missing_body])].

(** A server that answers 429 to every request. *)
Definition rate_limited : Mock.world :=
  Mock.mkWorld [] (fun _ => mkResponse 429 EmptyString) 0 0.

(** The value [cids2upacs] gives for one object of the property table. *)
Definition iupac_or_nan (p : pyval) : pyval :=
  match p with
  | PDict d =>
      match dict_lookup (PStr "IUPACName") d with
      | Some name => name
      | None => np_nan
      end
  | _ => np_nan
  end.

Definition is_dict (v : pyval) : Prop := exists d, v = PDict d.

(** The shape of a resolver's result: with [as_dict] a dict without
    repeated keys, without it a list. *)
Definition shape_ok (as_dict : bool) (result : pyval) : Prop :=
  if as_dict then exists d, result = PDict d /\ dict_wf d
  else exists l, result = PList l.

(** A string without a hyphen, as a Python value. *)
Definition hyphen_free_str (v : pyval) : Prop :=
  exists s, v = PStr s /\ hyphen_free s.

(** A scripted server whose connection drops when the script of a URL is
    used up: [requests.get] raises instead of answering. *)
Definition flaky_get (url : string) (w : Mock.world)
  : outcome Response * Mock.world :=
  match Mock.pop url (Mock.pending w) with
  | Some (r, p) =>
      (Ret r, Mock.mkWorld p (Mock.steady w) (Mock.clock w)
                (S (Mock.requests w)))
  | None =>
      (Raise RequestException,
       Mock.mkWorld (Mock.pending w) (Mock.steady w) (Mock.clock w)
         (S (Mock.requests w)))
  end.

Definition flaky_platform : Platform :=
  {| World := Mock.world;
     Element := Mock.xml;
     requests_get := flaky_get;
     time_sleep := Mock.sleep;
     json_loads := Mock.decode JSONDecodeError [];
     etree_fromstring := Mock.decode XMLSyntaxError [];
     findall := Mock.xml_findall;
     xpath := Mock.xml_xpath;
     repr_other := fun _ => "?" |}.

(** Scripted data: compound 3 with a null InChIKey. *)
Definition null_key_body : string :=
  "{'PropertyTable': {'Properties': [{'CID': 3, 'InChIKey': null}]}}".

Definition null_key_json : list (string * pyval) :=
  [(null_key_body,
    property_table [PDict [(PStr "CID", PInt 3); (PStr "InChIKey", PNone)]])].

Definition null_key_server : Mock.world :=
  Mock.server [(pubchem_cid_url ["3"] "InChIKey",
                [mkResponse 200 null_key_body])].

(** Scripted data: a SMILES element without text. *)
Definition empty_smiles_body : string :=
  "<PropertyTable><Properties><CanonicalSMILES/></Properties></PropertyTable>".

Definition empty_smiles_xml : Mock.xml :=
  Mock.XNode (pug "PropertyTable") []
    [Mock.XNode (pug "Properties") []
       [Mock.XNode (pug "CanonicalSMILES") [] []]].

(** Scripted data: the record of substance 123, with compound 2244 and
    without a compound. *)
Definition ncbi (local : string) : string :=
  String.append "{http://www.ncbi.nlm.nih.gov}" local.

Definition substance_body : string :=
  "<PC-Substances><PC-Substance><PC-CompoundType_id_cid>2244</PC-CompoundType_id_cid></PC-Substance></PC-Substances>".

Definition substance_xml : Mock.xml :=
  Mock.XNode (ncbi "PC-Substances") []
    [Mock.XNode (ncbi "PC-Substance") []
       [Mock.XNode (ncbi "PC-CompoundType_id_cid") ["2244"] []]].

Definition lone_substance_body : string :=
  "<PC-Substances><PC-Substance/></PC-Substances>".

Definition lone_substance_xml : Mock.xml :=
  Mock.XNode (ncbi "PC-Substances") [] [Mock.XNode (ncbi "PC-Substance") [] []].

Definition substance_xmls : list (string * Mock.xml) :=
  [(substance_body, substance_xml); (lone_substance_body, lone_substance_xml)].

Definition substance_123_url : string :=
  "https://pubchem.ncbi.nlm.nih.gov/rest/pug/substance/sid/123/xml".

Definition aspirin_server (record_body : string) : Mock.world :=
  Mock.server [(esearch_url "aspirin", [mkResponse 200 one_hit_body]);
               (substance_123_url, [mkResponse 200 record_body])].

Definition aspirin_server_after : Mock.world :=
  Mock.mkWorld [(esearch_url "aspirin", []); (substance_123_url, [])]
               (fun _ => Mock.not_found) 0 2.

(** Scripted data: names for compounds 1 and 2, the second without a
    name; and an object without its CID. *)
Definition names_body : string :=
  "{'PropertyTable': {'Properties': [{'CID': 1, 'IUPACName': 'ethanol'}, {'CID': 2}]}}".

Definition names_objects : list pyval :=
  [PDict [(PStr "CID", PInt 1); (PStr "IUPACName", PStr "ethanol")];
   PDict [(PStr "CID", PInt 2)]].

Definition anonymous_body : string :=
  "{'PropertyTable': {'Properties': [{'IUPACName': 'oxidane'}]}}".

Definition anonymous_objects : list pyval :=
  [PDict [(PStr "IUPACName", PStr "oxidane")]].

Definition names_json : list (string * pyval) :=
  [(names_body, property_table names_objects);
   (anonymous_body, property_table anonymous_objects)].

Definition names_server : Mock.world :=
  Mock.server [(pubchem_cid_url ["1"; "2"] "IUPACName",
                [mkResponse 200 names_body]);
               (pubchem_cid_url ["962"] "IUPACName",
                [mkResponse 200 anonymous_body])].

Definition names_server_after_both : Mock.world :=
  Mock.mkWorld [(pubchem_cid_url ["1"; "2"] "IUPACName", []);
                (pubchem_cid_url ["962"] "IUPACName",
                 [mkResponse 200 anonymous_body])]
               (fun _ => Mock.not_found) 0 1.

Definition names_server_after_962 : Mock.world :=
  Mock.mkWorld [(pubchem_cid_url ["1"; "2"] "IUPACName",
                 [mkResponse 200 names_body]);
                (pubchem_cid_url ["962"] "IUPACName", [])]
               (fun _ => Mock.not_found) 0 1.

(** [upacs_batches fuel w chunks vss w']: from [w], each batch of
    [chunks] in turn is fetched, its body decoded to a property table, and
    the names of its objects read; [vss] holds the values of each batch
    and [w'] is the world after the last fetch. *)
Inductive upacs_batches `{Platform} (fuel : nat)
  : World -> list (list string) -> list (list pyval) -> World -> Prop :=
| upacs_batches_nil (w : World) : upacs_batches fuel w [] [] w
| upacs_batches_cons (w w1 w2 : World) (ids : list string)
    (chunks : list (list string)) (r : option string) (ps vs : list pyval)
    (vss : list (list pyval)) :
    __safe_urlopen__ fuel (pubchem_cid_url ids "IUPACName") w = (Ret r, w1) ->
    properties r = Ret ps ->
    list_comprehension (fun p => __safe_object_access__ p (PStr "IUPACName")) ps
    = Ret vs ->
    upacs_batches fuel w1 chunks vss w2 ->
    upacs_batches fuel w (ids :: chunks) (vs :: vss) w2.

(** Scripted data: 101 compounds, asked for in batches of 51 and 50. *)
Definition many_cids : list Z := map Z.of_nat (seq 1 101).

Definition first_batch_body : string :=
  "{'PropertyTable': {'Properties': [{'CID': 1, 'IUPACName': 'ethanol'}]}}".

Definition second_batch_body : string :=
  "{'PropertyTable': {'Properties': [{'CID': 52}, {'CID': 53, 'IUPACName': 'oxidane'}]}}".

Definition batches_json : list (string * pyval) :=
  [(first_batch_body,
    property_table
      [PDict [(PStr "CID", PInt 1); (PStr "IUPACName", PStr "ethanol")]]);
   (second_batch_body,
    property_table
      [PDict [(PStr "CID", PInt 52)];
       PDict [(PStr "CID", PInt 53); (PStr "IUPACName", PStr "oxidane")]])].

Definition batches_server : Mock.world :=
  Mock.server
    [(pubchem_cid_url (map py_str_int (firstn 51 many_cids)) "IUPACName",
      [mkResponse 200 first_batch_body]);
     (pubchem_cid_url (map py_str_int (skipn 51 many_cids)) "IUPACName",
      [mkResponse 200 second_batch_body])].

(** The same server after [n] requests, with what is left of the two
    scripts. *)
Definition batches_server_after (n : nat) (left1 left2 : list Response)
  : Mock.world :=
  Mock.mkWorld
    [(pubchem_cid_url (map py_str_int (firstn 51 many_cids)) "IUPACName", left1);
     (pubchem_cid_url (map py_str_int (skipn 51 many_cids)) "IUPACName", left2)]
    (fun _ => Mock.not_found) 0 n.

(** The keys of a dict result, in order; a list result has none. *)
Definition keys_of (result : pyval) : list pyval :=
  match result with
  | PDict d => map fst d
  | _ => []
  end.

(** Two results of the same shape: both lists, or both dicts. *)
Definition same_shape (r r' : pyval) : Prop :=
  (exists l l', r = PList l /\ r' = PList l') \/
  (exists d d', r = PDict d /\ r' = PDict d').

(** [v'] is [v] whenever [v] is a string without a hyphen. *)
Definition kept_if_hyphen_free (v v' : pyval) : Prop :=
  forall s, v = PStr s -> hyphen_free s -> v' = v.

(** Scripted data: two objects whose CID is the JSON constant NaN. *)
Definition nan_keys_body : string :=
  "{'PropertyTable': {'Properties': [{'CID': NaN, 'IUPACName': 'a'}, {'CID': NaN, 'IUPACName': 'b'}]}}".

Definition nan_keys_json : list (string * pyval) :=
  [(nan_keys_body,
    property_table
      [PDict [(PStr "CID", PFloat FNan); (PStr "IUPACName", PStr "a")];
       PDict [(PStr "CID", PFloat FNan); (PStr "IUPACName", PStr "b")]])].

(** * Properties of the batcher *)

Section BatcherFacts.

Context {A : Type}.

Lemma map_nth_seq (l : list (list A)) :
  map (fun i => nth i l []) (seq 0 (length l)) = l.
Proof.
  induction l as [|x l IH]; [reflexivity|].
  cbn [length seq map nth]. f_equal.
  rewrite <- seq_shift, map_map. exact IH.
Qed.

Lemma slices_split_sizes (l : list A) (sizes : list nat) (off : nat) :
  let dp := off :: Numpy.cumsum_from off sizes in
  map (fun i => Numpy.slice l (nth i dp 0) (nth (i + 1) dp 0))
      (seq 0 (length sizes))
  = split_sizes sizes (skipn off l).
Proof.
  revert off. induction sizes as [|s rest IH]; intro off; [reflexivity|].
  cbn [length seq map Numpy.cumsum_from split_sizes].
  f_equal.
  - cbn. unfold Numpy.slice. f_equal. lia.
  - rewrite <- seq_shift, map_map.
    rewrite skipn_skipn, (Nat.add_comm s off), <- IH.
    apply map_ext. intro i.
    replace (S i + 1) with (S (i + 1)) by lia. reflexivity.
Qed.

Lemma concat_split_sizes (sizes : list nat) (l : list A) :
  length l <= list_sum sizes -> concat (split_sizes sizes l) = l.
Proof.
  revert l. induction sizes as [|s rest IH]; intros l H;
    cbn [split_sizes concat].
  - destruct l; [reflexivity | cbn in H; lia].
  - change (list_sum (s :: rest)) with (s + list_sum rest) in H.
    rewrite IH.
    + apply firstn_skipn.
    + rewrite length_skipn. lia.
Qed.

Lemma length_split_sizes (sizes : list nat) (l : list A) :
  list_sum sizes <= length l ->
  map (@length A) (split_sizes sizes l) = sizes.
Proof.
  revert l. induction sizes as [|s rest IH]; intros l H;
    cbn [split_sizes map]; [reflexivity|].
  change (list_sum (s :: rest)) with (s + list_sum rest) in H.
  rewrite IH by (rewrite length_skipn; lia).
  rewrite length_firstn. f_equal. lia.
Qed.

End BatcherFacts.

Lemma list_sum_repeat (a n : nat) : list_sum (repeat a n) = n * a.
Proof.
  induction n as [|n IH]; [reflexivity|].
  change (list_sum (repeat a (S n))) with (a + list_sum (repeat a n)).
  rewrite IH. lia.
Qed.

Lemma chunk_sizes_length (n k : nat) : 0 < k -> length (chunk_sizes n k) = k.
Proof.
  intro Hk. unfold chunk_sizes.
  rewrite length_app, !repeat_length.
  pose proof (Nat.mod_upper_bound n k). lia.
Qed.

Lemma chunk_sizes_sum (n k : nat) : 0 < k -> list_sum (chunk_sizes n k) = n.
Proof.
  intro Hk. unfold chunk_sizes.
  rewrite list_sum_app, !list_sum_repeat.
  pose proof (Nat.mod_upper_bound n k ltac:(lia)) as Hm.
  pose proof (Nat.div_mod_eq n k) as Hd.
  nia.
Qed.

Lemma array_split_sizes {A} (ary : list A) (k : nat) :
  0 < k ->
  Numpy.array_split ary k = Ret (split_sizes (chunk_sizes (length ary) k) ary).
Proof.
  intro Hk. unfold Numpy.array_split.
  destruct (Nat.leb_spec k 0) as [H0|_]; [lia|].
  f_equal.
  unfold Numpy.section_sizes, Numpy.cumsum.
  change ([0] ++ ?l) with (0 :: l).
  cbn [Numpy.cumsum_from]. rewrite Nat.add_0_r.
  fold (chunk_sizes (length ary) k).
  pose proof (slices_split_sizes ary (chunk_sizes (length ary) k) 0) as Hs.
  cbv zeta in Hs. rewrite (chunk_sizes_length _ _ Hk) in Hs.
  exact Hs.
Qed.

Lemma num_divisions_ceil (n : nat) :
  n <= 100 * num_divisions_of n /\ 100 * num_divisions_of n < n + 100.
Proof.
  unfold num_divisions_of.
  pose proof (Nat.div_mod_eq n 100) as Hd.
  pose proof (Nat.mod_upper_bound n 100 ltac:(lia)) as Hm.
  destruct (Nat.eqb_spec (n mod 100) 0); lia.
Qed.

Lemma divide_list_sizes {A} (ids : list A) :
  ids <> [] ->
  __divide_list__ ids =
  Ret (split_sizes
         (chunk_sizes (length ids) (num_divisions_of (length ids))) ids).
Proof.
  intro Hne. unfold __divide_list__.
  assert (0 < num_divisions_of (length ids)) as Hk.
  { destruct ids as [|x ids]; [congruence|].
    pose proof (num_divisions_ceil (length (x :: ids))). cbn [length] in *. lia. }
  rewrite (array_split_sizes ids _ Hk). cbn [obind].
  now rewrite map_nth_seq.
Qed.

Lemma Forall_repeat {X} (P : X -> Prop) (a : X) (n : nat) :
  P a -> Forall P (repeat a n).
Proof. intro Ha. induction n; cbn; constructor; assumption. Qed.

(** C2. For a non-empty list of length [n], [__divide_list__] returns
    [k = ceil(n/100)] chunks ([n <= 100k < n + 100]); the chunks are
    contiguous and in order (they concatenate back to the input); their
    lengths are [n/k + 1] for the first [n mod k] chunks and [n/k] for the
    others, so they differ by at most one; and no chunk is longer than
    100. *)
Theorem divide_list_chunks {A} (ids : list A) :
  ids <> [] ->
  exists chunks : list (list A),
    __divide_list__ ids = Ret chunks /\
    length ids <= 100 * length chunks /\
    100 * length chunks < length ids + 100 /\
    concat chunks = ids /\
    map (@length A) chunks = chunk_sizes (length ids) (length chunks) /\
    Forall (fun c => length c <= 100) chunks /\
    (forall c c', In c chunks -> In c' chunks -> length c <= length c' + 1).
Proof.
  intro Hne.
  set (n := length ids). set (k := num_divisions_of n).
  pose proof (num_divisions_ceil n) as [Hle Hlt]. fold k in Hle, Hlt.
  assert (0 < n) as Hn by (destruct ids; [congruence | cbn; lia]).
  assert (0 < k) as Hk by lia.
  exists (split_sizes (chunk_sizes n k) ids).
  assert (map (@length A) (split_sizes (chunk_sizes n k) ids) = chunk_sizes n k)
    as Hlens by (apply length_split_sizes; rewrite chunk_sizes_sum; subst n; lia).
  assert (length (split_sizes (chunk_sizes n k) ids) = k) as Hcount.
  { rewrite <- (length_map (@length A)), Hlens. now apply chunk_sizes_length. }
  assert (forall s, In s (chunk_sizes n k) -> s = n / k \/ s = n / k + 1)
    as Hsizes.
  { intros s Hs. unfold chunk_sizes in Hs. apply in_app_or in Hs.
    destruct Hs as [Hs|Hs]; apply repeat_spec in Hs; auto. }
  assert (n mod k = 0 \/ n / k + 1 <= 100) as Hbound.
  { pose proof (Nat.div_mod_eq n k). pose proof (Nat.mod_upper_bound n k).
    destruct (Nat.eq_dec (n mod k) 0); [now left | right; nia]. }
  assert (n / k <= 100) as Hdiv.
  { pose proof (Nat.div_mod_eq n k). nia. }
  rewrite Hcount. repeat split; try assumption.
  - now apply divide_list_sizes.
  - apply concat_split_sizes. rewrite chunk_sizes_sum; subst n; lia.
  - apply Forall_map with (f := @length A) (P := fun s => s <= 100).
    rewrite Hlens. unfold chunk_sizes. apply Forall_app. split.
    + destruct Hbound as [H0|H1].
      * rewrite H0. constructor.
      * now apply Forall_repeat.
    + now apply Forall_repeat.
  - intros c c' Hc Hc'.
    apply (in_map (@length A)) in Hc, Hc'. rewrite Hlens in Hc, Hc'.
    apply Hsizes in Hc, Hc'. lia.
Qed.

(** A run of C2: 250 identifiers go into three chunks of 84, 83 and 83. *)
Lemma divide_list_chunks_witness :
  exists chunks : list (list nat),
    __divide_list__ (seq 0 250) = Ret chunks /\
    length (seq 0 250) <= 100 * length chunks /\
    100 * length chunks < length (seq 0 250) + 100 /\
    concat chunks = seq 0 250 /\
    map (@length nat) chunks = chunk_sizes (length (seq 0 250)) (length chunks) /\
    Forall (fun c => length c <= 100) chunks /\
    (forall c c', In c chunks -> In c' chunks -> length c <= length c' + 1).
Proof. apply (divide_list_chunks (seq 0 250)). discriminate. Defined.

Example divide_list_250 :
  obind (__divide_list__ (seq 0 250)) (fun c => Ret (map (@length nat) c))
  = Ret [84; 83; 83].
Proof. vm_compute. reflexivity. Qed.

(** C3. On the empty list [num_divisions] is 0 and [np.array_split]
    refuses a section count of 0: the batcher raises [ValueError] instead
    of returning an empty sequence of chunks. *)
Theorem divide_list_empty_raises {A} :
  __divide_list__ (@nil A) = Raise ValueError.
Proof. reflexivity. Qed.

(** * Properties of the fetcher *)

Section FetcherFacts.

Context `{P : Platform}.

Lemma safe_urlopen_step (fuel : nat) (url : string) (w w1 : World)
  (r : Response) :
  requests_get url w = (Ret r, w1) ->
  __safe_urlopen__ (S fuel) url w =
  match retry_delay (status_code r) with
  | Some d => __safe_urlopen__ fuel url (time_sleep d w1)
  | None =>
      (Ret (if (status_code r =? 200)%Z then Some (content r) else None), w1)
  end.
Proof.
  intro Hget. cbn [__safe_urlopen__]. unfold bind at 1. rewrite Hget.
  unfold retry_delay.
  destruct (Z.eqb_spec (status_code r) 200) as [E200|N200].
  - rewrite E200. reflexivity.
  - destruct (Z.eqb_spec (status_code r) 429) as [E429|N429]; [reflexivity|].
    destruct (Z.eqb_spec (status_code r) 503) as [E503|N503]; [reflexivity|].
    destruct (Z.eqb_spec (status_code r) 404); reflexivity.
Qed.

Lemma safe_urlopen_busy_run (url : string) (w w' : World) (delays : list N) :
  busy_run url w delays w' ->
  forall fuel,
    __safe_urlopen__ (length delays + fuel) url w = __safe_urlopen__ fuel url w'.
Proof.
  induction 1 as [w|w w1 w2 r d ds Hget Hd _ IH]; intro fuel; [reflexivity|].
  cbn [length Nat.add].
  rewrite (safe_urlopen_step _ _ _ _ _ Hget), Hd. apply IH.
Qed.

Lemma safe_urlopen_decided (url : string) (w w' w'' : World)
  (delays : list N) (r : Response) (fuel : nat) :
  busy_run url w delays w' ->
  requests_get url w' = (Ret r, w'') ->
  retry_delay (status_code r) = None ->
  length delays < fuel ->
  __safe_urlopen__ fuel url w =
  (Ret (if (status_code r =? 200)%Z then Some (content r) else None), w'').
Proof.
  intros Hrun Hget Hd Hfuel.
  replace fuel with (length delays + S (fuel - S (length delays))) by lia.
  rewrite (safe_urlopen_busy_run _ _ _ _ Hrun).
  now rewrite (safe_urlopen_step _ _ _ _ _ Hget), Hd.
Qed.

(** C1. What the fetcher returns is decided by the status codes alone.
    After any run of 429 and 503 responses (none, in particular), each
    followed by its sleep, the first response with another status ends
    the call: a 200 gives its body unchanged, a 404 gives [None], and any
    other status gives [None] as well, without an exception. *)
Theorem safe_urlopen_by_status (url : string) (w w' w'' : World)
  (delays : list N) (r : Response) (fuel : nat) :
  busy_run url w delays w' ->
  requests_get url w' = (Ret r, w'') ->
  length delays < fuel ->
  (status_code r = 200%Z ->
   __safe_urlopen__ fuel url w = (Ret (Some (content r)), w'')) /\
  (status_code r = 404%Z ->
   __safe_urlopen__ fuel url w = (Ret None, w'')) /\
  (status_code r <> 200%Z -> status_code r <> 429%Z ->
   status_code r <> 503%Z ->
   __safe_urlopen__ fuel url w = (Ret None, w'')).
Proof.
  intros Hrun Hget Hfuel.
  assert (forall b : option string,
             retry_delay (status_code r) = None ->
             (if (status_code r =? 200)%Z then Some (content r) else None) = b ->
             __safe_urlopen__ fuel url w = (Ret b, w'')) as Hend.
  { intros b Hd <-. now apply safe_urlopen_decided with (delays := delays) (w' := w'). }
  repeat split.
  - intro E. apply Hend; unfold retry_delay; rewrite E; reflexivity.
  - intro E. apply Hend; unfold retry_delay; rewrite E; reflexivity.
  - intros N200 N429 N503. apply Hend; unfold retry_delay.
    + destruct (Z.eqb_spec (status_code r) 429); [contradiction|].
      destruct (Z.eqb_spec (status_code r) 503); [contradiction|reflexivity].
    + destruct (Z.eqb_spec (status_code r) 200); [contradiction|reflexivity].
Qed.

End FetcherFacts.

(** The run the spec tests: a 429 followed by a 200 yields the body of the
    200 after one sleep of half a second and two requests. *)
Lemma safe_urlopen_by_status_witness :
  @__safe_urlopen__ (Mock.platform [] []) 2 "u"
    (Mock.server [("u", [mkResponse 429 "slow down"; mkResponse 200 "body"])])
  = (Ret (Some "body"),
     Mock.mkWorld [("u", [])] (fun _ => Mock.not_found) 500 2).
Proof.
  refine (proj1 (@safe_urlopen_by_status (Mock.platform [] []) "u"
                   (Mock.server [("u", [mkResponse 429 "slow down";
                                        mkResponse 200 "body"])])
                   (Mock.mkWorld [("u", [mkResponse 200 "body"])]
                                 (fun _ => Mock.not_found) 500 1)
                   _ [500%N] (mkResponse 200 "body") 2 _ _ _) _).
  - eapply busy_retry; [reflexivity | reflexivity | apply busy_done].
  - reflexivity.
  - cbn. lia.
  - reflexivity.
Defined.

Example safe_urlopen_404 :
  fst (@__safe_urlopen__ (Mock.platform [] []) 1 "u" (Mock.server []))
  = Ret None.
Proof. reflexivity. Qed.

Example safe_urlopen_500 :
  fst (@__safe_urlopen__ (Mock.platform [] []) 1 "u"
         (Mock.server [("u", [mkResponse 500 "oops"])]))
  = Ret None.
Proof. reflexivity. Qed.

Example safe_urlopen_503_429_200 :
  @__safe_urlopen__ (Mock.platform [] []) 3 "u"
    (Mock.server [("u", [mkResponse 503 EmptyString; mkResponse 429 EmptyString;
                         mkResponse 200 "late"])])
  = (Ret (Some "late"),
     Mock.mkWorld [("u", [])] (fun _ => Mock.not_found) 1500 3).
Proof. reflexivity. Qed.

(** * Persistent rate limiting *)

Section PersistentBusy.

Context `{P : Platform}.

Lemma bind_out_of_fuel {A B} (c : M A) (k : A -> M B) (w : World) :
  fst (c w) = OutOfFuel -> fst (bind c k w) = OutOfFuel.
Proof.
  unfold bind. destruct (c w) as [[a|e|] w']; cbn; congruence.
Qed.

Lemma bind_lift_ret {A B} (a : A) (k : A -> M B) (w : World) :
  bind (lift (Ret a)) k w = k a w.
Proof. reflexivity. Qed.

Lemma safe_urlopen_busy_forever (url : string) (Busy : World -> Prop) :
  (forall w, Busy w ->
     exists r w1 d,
       requests_get url w = (Ret r, w1) /\
       retry_delay (status_code r) = Some d /\
       Busy (time_sleep d w1)) ->
  forall fuel w, Busy w -> fst (__safe_urlopen__ fuel url w) = OutOfFuel.
Proof.
  intros Hstep fuel. induction fuel as [|fuel IH]; intros w Hw; [reflexivity|].
  destruct (Hstep w Hw) as (r & w1 & d & Hget & Hd & Hnext).
  rewrite (safe_urlopen_step _ _ _ _ _ Hget), Hd. now apply IH.
Qed.

(** C9. If the server answers a URL with 429 or 503 in every state the
    retries can reach ([Busy] holds at the start and again after each
    such answer and its sleep), then no depth of recursion makes
    [__safe_urlopen__] return: the call is still retrying when any given
    fuel is used up.  The same holds for each resolver whose first fetch
    is of that URL. *)
Theorem persistent_busy_never_returns (url : string) (Busy : World -> Prop) :
  (forall w, Busy w ->
     exists r w1 d,
       requests_get url w = (Ret r, w1) /\
       retry_delay (status_code r) = Some d /\
       Busy (time_sleep d w1)) ->
  forall fuel w, Busy w ->
    fst (__safe_urlopen__ fuel url w) = OutOfFuel /\
    (forall cid, smiles_url cid = url ->
       fst (cid2smile fuel cid w) = OutOfFuel) /\
    (forall mesh, esearch_url mesh = url ->
       fst (mesh2pid fuel mesh w) = OutOfFuel) /\
    (forall cids ids rest as_dict,
       __divide_list__ (map py_str_int cids) = Ret (ids :: rest) ->
       pubchem_cid_url ids "IUPACName" = url ->
       fst (cids2upacs fuel cids as_dict w) = OutOfFuel) /\
    (forall cids ids rest as_dict use_prefix (keys : bool),
       __divide_list__ (map py_str_int cids) = Ret (ids :: rest) ->
       pubchem_cid_url ids (if keys then "InChIKey" else "InChI") = url ->
       fst (cids2inchis fuel cids as_dict use_prefix keys w) = OutOfFuel).
Proof.
  intros Hstep fuel w Hw.
  pose proof (safe_urlopen_busy_forever url Busy Hstep fuel w Hw) as Hstall.
  repeat split.
  - exact Hstall.
  - intros cid <-. unfold cid2smile. now apply bind_out_of_fuel.
  - intros mesh <-. unfold mesh2pid. now apply bind_out_of_fuel.
  - intros cids ids rest as_dict Hdiv <-.
    unfold cids2upacs. rewrite Hdiv, bind_lift_ret.
    cbn [for_each]. apply bind_out_of_fuel.
    unfold cids2upacs_step. now apply bind_out_of_fuel.
  - intros cids ids rest as_dict use_prefix keys Hdiv <-.
    unfold cids2inchis. apply bind_out_of_fuel.
    unfold cids2inchis_loop. rewrite Hdiv, bind_lift_ret.
    cbn [for_each]. apply bind_out_of_fuel.
    unfold cids2inchis_step. now apply bind_out_of_fuel.
Qed.

End PersistentBusy.

(** A fetch with a stack of 50 calls against a server that answers 429 to
    every request makes 50 requests, sleeps 25 seconds and has not
    returned. *)
Lemma persistent_busy_never_returns_witness :
  fst (@__safe_urlopen__ (Mock.platform [] []) 50 "u" rate_limited) = OutOfFuel.
Proof.
  refine (proj1 (@persistent_busy_never_returns (Mock.platform [] []) "u"
                   (fun w => Mock.pending w = [] /\
                             Mock.steady w = fun _ => mkResponse 429 EmptyString)
                   _ 50 rate_limited _)).
  - intros w [Hp Hs].
    exists (mkResponse 429 EmptyString), (snd (Mock.get "u" w)), 500%N.
    cbn. unfold Mock.get. rewrite Hp, Hs. cbn. repeat split.
  - split; reflexivity.
Defined.

Example rate_limited_requests :
  Mock.requests (snd (@__safe_urlopen__ (Mock.platform [] []) 50 "u" rate_limited)) = 50
  /\ Mock.clock (snd (@__safe_urlopen__ (Mock.platform [] []) 50 "u" rate_limited)) = 25000%N.
Proof. split; reflexivity. Qed.

(** * The [use_prefix] pass *)

Lemma str_split_head (sep : ascii) (s : string) :
  exists rest, str_split sep s = before_first sep s :: rest.
Proof.
  induction s as [|c s [rest IH]]; cbn [str_split before_first].
  - now exists [].
  - destruct (Ascii.eqb c sep); [now eexists|].
    rewrite IH. now eexists.
Qed.

Lemma inchikey_prefix_str (s : string) :
  inchikey_prefix (PStr s) = Ret (PStr (before_first "-"%char s)).
Proof.
  unfold inchikey_prefix, py_split_hyphen. cbn [obind].
  destruct (str_split_head "-"%char s) as [rest ->]. reflexivity.
Qed.

(** [before_first] cuts exactly at the first separator. *)
Lemma before_first_spec (sep : ascii) (s : string) :
  ~ In sep (list_ascii_of_string (before_first sep s)) /\
  (before_first sep s = s \/
   exists rest, s = String.append (before_first sep s) (String sep rest)).
Proof.
  induction s as [|c s [IHno IHcut]]; cbn [before_first].
  - split; [intros [] | now left].
  - destruct (Ascii.eqb_spec c sep) as [->|Hne].
    + split; [intros [] | right; now exists s].
    + split.
      * cbn. intros [E|Hin]; [congruence | contradiction].
      * destruct IHcut as [E|[rest E]].
        -- left. now rewrite E.
        -- right. exists rest. cbn. now rewrite <- E.
Qed.

Lemma before_first_absent (sep : ascii) (s : string) :
  ~ In sep (list_ascii_of_string s) -> before_first sep s = s.
Proof.
  induction s as [|c s IH]; cbn; [reflexivity|]. intro Hno.
  destruct (Ascii.eqb_spec c sep) as [->|Hne]; [tauto|].
  f_equal. apply IH. tauto.
Qed.

Lemma dict_set_fresh (k v : pyval) (d : list (pyval * pyval)) :
  Forall (fun kv => key_match (fst kv) k = false) d ->
  dict_set k v d = d ++ [(k, v)].
Proof.
  induction 1 as [|[k' v'] d Hk _ IH]; [reflexivity|].
  cbn [dict_set app]. cbn in Hk. now rewrite Hk, IH.
Qed.

Lemma dict_set_present (k v : pyval) (d : list (pyval * pyval)) :
  Exists (fun kv => key_match (fst kv) k = true) d ->
  map fst (dict_set k v d) = map fst d.
Proof.
  induction 1 as [[k' v'] d Hk|[k' v'] d _ IH]; cbn [dict_set map fst].
  - cbn in Hk. now rewrite Hk.
  - destruct (key_match k' k); [reflexivity|]. cbn [map fst]. now rewrite IH.
Qed.

Lemma dict_wf_keys (d d' : list (pyval * pyval)) :
  map fst d = map fst d' -> dict_wf d -> dict_wf d'.
Proof.
  intros Hkeys Hwf. revert d' Hkeys.
  induction Hwf as [|d k v Hwf IH Hh Hfresh]; intros d' Hkeys.
  - destruct d'; [constructor | discriminate].
  - rewrite map_app in Hkeys. cbn [map fst] in Hkeys.
    destruct (exists_last (l := d')) as (d0 & [k0 v0] & ->).
    { intros ->. destruct (map fst d); discriminate. }
    rewrite map_app in Hkeys. cbn [map fst] in Hkeys.
    apply app_inj_tail in Hkeys as [Hkeys ->].
    constructor; [now apply IH | assumption |].
    rewrite Forall_forall in *. intros kv Hin.
    apply (in_map fst) in Hin. rewrite <- Hkeys in Hin.
    apply in_map_iff in Hin as (kv' & E & Hin').
    rewrite <- E. now apply Hfresh.
Qed.

Lemma dict_set_wf (k v : pyval) (d : list (pyval * pyval)) :
  hashable k = true -> dict_wf d -> dict_wf (dict_set k v d).
Proof.
  intros Hh Hwf.
  destruct (Exists_dec (fun kv => key_match (fst kv) k = true) d) as [Hex|Hno].
  - intros [k' v']. cbn. destruct (key_match k' k); [now left | now right].
  - apply dict_wf_keys with (d := d); [|assumption].
    symmetry. now apply dict_set_present.
  - assert (Forall (fun kv => key_match (fst kv) k = false) d) as Hfresh.
    { rewrite Forall_forall. intros kv Hin.
      destruct (key_match (fst kv) k) eqn:E; [|reflexivity].
      exfalso. apply Hno. rewrite Exists_exists. now exists kv. }
    rewrite dict_set_fresh by assumption. now constructor.
Qed.

Lemma dict_wf_last (d : list (pyval * pyval)) (k v : pyval) :
  dict_wf (d ++ [(k, v)]) ->
  dict_wf d /\ hashable k = true /\
  Forall (fun kv => key_match (fst kv) k = false) d.
Proof.
  intro H. inversion H as [E|d0 k0 v0 Hwf Hh Hfresh E].
  - destruct d; discriminate.
  - apply app_inj_tail in E as [-> E]. injection E as -> ->. auto.
Qed.

Lemma dict_wf_front (d d' : list (pyval * pyval)) :
  dict_wf (d ++ d') -> dict_wf d.
Proof.
  induction d' as [|x d' IH] using rev_ind; intro H.
  - now rewrite app_nil_r in H.
  - rewrite app_assoc in H. destruct x as [k v].
    apply dict_wf_last in H as [H _]. now apply IH.
Qed.

Lemma dict_wf_hashable (d : list (pyval * pyval)) :
  dict_wf d -> Forall (fun kv => hashable (fst kv) = true) d.
Proof.
  induction 1 as [|d k v _ IH Hh _]; [constructor|].
  apply Forall_app. split; [assumption | now repeat constructor].
Qed.

Lemma dict_update_wf (d new : list (pyval * pyval)) :
  Forall (fun kv => hashable (fst kv) = true) new ->
  dict_wf d -> dict_wf (dict_update d new).
Proof.
  unfold dict_update. intro Hnew. revert d.
  induction Hnew as [|[k v] new Hk _ IH]; intros d Hwf; [assumption|].
  cbn [fold_left fst snd]. apply IH. now apply dict_set_wf.
Qed.

Lemma dict_comprehension_wf {X} (key value : X -> outcome pyval)
  (ps : list X) (acc d : list (pyval * pyval)) :
  dict_comprehension key value ps acc = Ret d -> dict_wf acc -> dict_wf d.
Proof.
  revert acc. induction ps as [|p ps IH]; intros acc Hrun Hwf;
    cbn [dict_comprehension] in Hrun.
  - now injection Hrun as <-.
  - destruct (key p) as [k| |]; cbn [obind] in Hrun; try discriminate.
    destruct (value p) as [v| |]; cbn [obind] in Hrun; try discriminate.
    destruct (hashable k) eqn:Hh; [|discriminate].
    apply (IH _ Hrun). now apply dict_set_wf.
Qed.

Lemma list_comprehension_prefix (l : list pyval) :
  Forall is_str l ->
  list_comprehension inchikey_prefix l = Ret (map truncate_key l).
Proof.
  induction 1 as [|v l [s ->] _ IH]; [reflexivity|].
  cbn [list_comprehension map]. rewrite inchikey_prefix_str, IH. reflexivity.
Qed.

Lemma dict_comprehension_prefix (items acc : list (pyval * pyval)) :
  dict_wf (acc ++ items) ->
  Forall is_str (map snd items) ->
  dict_comprehension (fun kv => Ret (fst kv))
    (fun kv => inchikey_prefix (snd kv)) items acc
  = Ret (acc ++ map (fun kv => (fst kv, truncate_key (snd kv))) items).
Proof.
  revert acc. induction items as [|[k v] items IH]; intros acc Hwf Hstr.
  - cbn. now rewrite app_nil_r.
  - cbn [map snd] in Hstr. inversion Hstr as [|? ? [s ->] Hstr']; subst.
    cbn [dict_comprehension obind fst snd map].
    rewrite inchikey_prefix_str. cbn [obind truncate_key].
    change (acc ++ (k, PStr s) :: items)
      with (acc ++ [(k, PStr s)] ++ items) in Hwf.
    rewrite app_assoc in Hwf.
    destruct (dict_wf_last _ _ _ (dict_wf_front _ _ Hwf)) as (_ & Hh & Hfresh).
    rewrite Hh, (dict_set_fresh _ _ _ Hfresh), IH; [|  | assumption].
    + now rewrite <- app_assoc.
    + apply dict_wf_keys with (d := (acc ++ [(k, PStr s)]) ++ items);
        [|assumption].
      rewrite !map_app. reflexivity.
Qed.

(** The pass of lines 67 to 69 on a result whose values are strings. *)
Lemma take_prefixes_truncates (inchikeys : pyval) :
  result_wf inchikeys ->
  Forall is_str (values_of inchikeys) ->
  take_prefixes inchikeys = Ret (map_values truncate_key inchikeys).
Proof.
  destruct inchikeys as [| | | | |l|d]; cbn [result_wf]; try contradiction;
    intros Hwf Hstr; cbn [take_prefixes values_of map_values] in *.
  - cbn [py_iter obind]. now rewrite list_comprehension_prefix.
  - now rewrite (dict_comprehension_prefix d []).
Qed.

Lemma map_values_hyphen_free (inchikeys : pyval) :
  (forall v, In v (values_of inchikeys) -> exists s, v = PStr s /\ hyphen_free s) ->
  map_values truncate_key inchikeys = inchikeys.
Proof.
  assert (forall v, (exists s, v = PStr s /\ hyphen_free s) -> truncate_key v = v)
    as Hkeep.
  { intros v (s & -> & Hs). cbn. now rewrite before_first_absent. }
  destruct inchikeys as [| | | | |l|d]; try reflexivity;
    cbn [values_of map_values]; intro H; f_equal.
  - rewrite <- (map_id l) at 2. apply map_ext_in. intros v Hv. auto.
  - rewrite <- (map_id d) at 2. apply map_ext_in. intros [k v] Hkv.
    cbn [fst snd]. f_equal. apply Hkeep, H.
    apply in_map_iff. now exists (k, v).
Qed.

Section PrefixPass.

Context `{P : Platform}.

Lemma bind_ret_inv {A B} (c : M A) (k : A -> M B) (w w' : World) (b : B) :
  bind c k w = (Ret b, w') ->
  exists a w1, c w = (Ret a, w1) /\ k a w1 = (Ret b, w').
Proof.
  unfold bind. destruct (c w) as [[a|e|] w1]; intro H; try discriminate.
  now exists a, w1.
Qed.

Lemma lift_ret_inv {A} (o : outcome A) (w w' : World) (a : A) :
  lift o w = (Ret a, w') -> o = Ret a /\ w' = w.
Proof. unfold lift. intro H. injection H as -> ->. auto. Qed.

Lemma for_each_invariant {S X} (Inv : S -> Prop) (body : S -> X -> M S) :
  (forall s x w s' w', body s x w = (Ret s', w') -> Inv s -> Inv s') ->
  forall xs s w s' w',
    for_each xs body s w = (Ret s', w') -> Inv s -> Inv s'.
Proof.
  intros Hbody xs. induction xs as [|x xs IH]; intros s w s' w' Hrun Hs.
  - cbn in Hrun. unfold ret in Hrun. now injection Hrun as <- _.
  - cbn [for_each] in Hrun.
    apply bind_ret_inv in Hrun as (s1 & w1 & Hstep & Hrest).
    eapply IH; [exact Hrest|]. eapply Hbody; eassumption.
Qed.

Lemma cids2inchis_step_wf (fuel : nat) (as_dict keys : bool)
  (acc : pyval) (ids : list string) (w : World) (acc' : pyval) (w' : World) :
  cids2inchis_step fuel as_dict keys acc ids w = (Ret acc', w') ->
  result_wf acc -> result_wf acc'.
Proof.
  unfold cids2inchis_step. intros Hrun Hwf.
  apply bind_ret_inv in Hrun as (r & w1 & _ & Hrun).
  destruct as_dict.
  - apply bind_ret_inv in Hrun as (ps & w2 & _ & Hrun).
    apply bind_ret_inv in Hrun as (new_dict & w3 & Hnew & Hrun).
    apply lift_ret_inv in Hnew as [Hnew _].
    apply lift_ret_inv in Hrun as [Hrun _].
    apply dict_comprehension_wf in Hnew; [|constructor].
    destruct acc; try discriminate. cbn in Hrun. injection Hrun as <-.
    cbn. apply dict_update_wf; [now apply dict_wf_hashable | exact Hwf].
  - apply bind_ret_inv in Hrun as (ps & w2 & _ & Hrun).
    apply bind_ret_inv in Hrun as (new_list & w3 & _ & Hrun).
    apply lift_ret_inv in Hrun as [Hrun _].
    destruct acc; try discriminate. cbn in Hrun. now injection Hrun as <-.
Qed.

Lemma cids2inchis_loop_wf (fuel : nat) (cids : list Z) (as_dict keys : bool)
  (w : World) (inchikeys : pyval) (w' : World) :
  cids2inchis_loop fuel cids as_dict keys w = (Ret inchikeys, w') ->
  result_wf inchikeys.
Proof.
  unfold cids2inchis_loop. intro Hrun.
  apply bind_ret_inv in Hrun as (chunks & w1 & _ & Hrun).
  apply (for_each_invariant result_wf _
           (cids2inchis_step_wf fuel as_dict keys) _ _ _ _ _ Hrun).
  destruct as_dict; cbn; [constructor | exact I].
Qed.

Lemma cids2inchis_without_prefix (fuel : nat) (cids : list Z)
  (as_dict keys : bool) (w : World) :
  cids2inchis fuel cids as_dict false keys w
  = cids2inchis_loop fuel cids as_dict keys w.
Proof.
  unfold cids2inchis, bind, ret.
  destruct (cids2inchis_loop fuel cids as_dict keys w) as [[v|e|] w1];
    reflexivity.
Qed.

Lemma cids2inchis_with_prefix (fuel : nat) (cids : list Z)
  (as_dict keys : bool) (w w' : World) (inchikeys : pyval) :
  cids2inchis fuel cids as_dict false keys w = (Ret inchikeys, w') ->
  Forall is_str (values_of inchikeys) ->
  cids2inchis fuel cids as_dict true keys w
  = (Ret (map_values truncate_key inchikeys), w').
Proof.
  rewrite cids2inchis_without_prefix. intros Hloop Hstr.
  unfold cids2inchis, bind at 1. rewrite Hloop. unfold lift.
  rewrite take_prefixes_truncates; [reflexivity | | assumption].
  eapply cids2inchis_loop_wf; eassumption.
Qed.

(** C8. With [use_prefix=True], every InChIKey of the result, a dict or a
    list alike, is cut to the substring before its first hyphen: the run
    that without the flag returns [inchikeys], all of them strings, with
    the flag returns the same shape, keys and order with [truncate_key] on
    each value.  The key ABCDEF-UHFFFAOYSA-N becomes ABCDEF. *)
Theorem use_prefix_truncates (fuel : nat) (cids : list Z)
  (as_dict keys : bool) (w w' : World) (inchikeys : pyval) :
  cids2inchis fuel cids as_dict false keys w = (Ret inchikeys, w') ->
  (forall v, In v (values_of inchikeys) -> exists s, v = PStr s) ->
  cids2inchis fuel cids as_dict true keys w
  = (Ret (map_values truncate_key inchikeys), w') /\
  inchikey_prefix (PStr "ABCDEF-UHFFFAOYSA-N") = Ret (PStr "ABCDEF").
Proof.
  intros Hrun Hstr. split; [|reflexivity].
  apply cids2inchis_with_prefix; [assumption|].
  rewrite Forall_forall. exact Hstr.
Qed.

Lemma values_of_map_values (f : pyval -> pyval) (result : pyval) :
  result_wf result ->
  values_of (map_values f result) = map f (values_of result).
Proof.
  destruct result as [| | | | |l|d]; cbn [result_wf]; try contradiction;
    intros _; cbn [values_of map_values]; [reflexivity|].
  now rewrite !map_map.
Qed.

Lemma keys_of_map_values (f : pyval -> pyval) (result : pyval) :
  keys_of (map_values f result) = keys_of result.
Proof.
  destruct result as [| | | | |l|d]; try reflexivity.
  cbn [keys_of map_values]. now rewrite map_map.
Qed.

Lemma same_shape_map_values (f : pyval -> pyval) (result : pyval) :
  result_wf result -> same_shape result (map_values f result).
Proof.
  destruct result as [| | | | |l|d]; cbn [result_wf]; try contradiction;
    intros _; [left | right]; eexists _, _; split; reflexivity.
Qed.

Lemma truncate_key_kept (l : list pyval) :
  Forall2 kept_if_hyphen_free l (map truncate_key l).
Proof.
  induction l as [|v l IH]; cbn [map]; constructor; [|exact IH].
  intros s -> Hs. cbn [truncate_key]. now rewrite before_first_absent.
Qed.

(** C10. [use_prefix=True] leaves every hyphen-free value as it is.  For a
    run whose result without the flag has string values, the run with
    the flag returns a result of the same shape, with the same keys in
    the same order, in which each value that had no hyphen is unchanged
    at its place, whatever the other values are; if no value has a
    hyphen the whole result is unchanged.  On a hyphen-free string
    [ikey.split('-')[0]] is [ikey]. *)
Theorem use_prefix_keeps_hyphen_free (fuel : nat) (cids : list Z)
  (as_dict keys : bool) (w w' : World) (inchikeys : pyval) :
  cids2inchis fuel cids as_dict false keys w = (Ret inchikeys, w') ->
  (forall v, In v (values_of inchikeys) -> exists s, v = PStr s) ->
  (exists result,
     cids2inchis fuel cids as_dict true keys w = (Ret result, w') /\
     same_shape inchikeys result /\
     keys_of result = keys_of inchikeys /\
     Forall2 kept_if_hyphen_free (values_of inchikeys) (values_of result) /\
     ((forall v, In v (values_of inchikeys) ->
         exists s, v = PStr s /\ hyphen_free s) ->
      result = inchikeys)) /\
  (forall s, hyphen_free s -> inchikey_prefix (PStr s) = Ret (PStr s)).
Proof.
  intros Hrun Hstr.
  assert (result_wf inchikeys) as Hwf.
  { rewrite cids2inchis_without_prefix in Hrun.
    eapply cids2inchis_loop_wf; eassumption. }
  split.
  - exists (map_values truncate_key inchikeys). repeat split.
    + apply cids2inchis_with_prefix; [assumption|].
      rewrite Forall_forall. exact Hstr.
    + now apply same_shape_map_values.
    + apply keys_of_map_values.
    + rewrite (values_of_map_values _ _ Hwf). apply truncate_key_kept.
    + apply map_values_hyphen_free.
  - intros s Hs. rewrite inchikey_prefix_str. unfold hyphen_free in Hs.
    now rewrite before_first_absent.
Qed.

End PrefixPass.

(** A run of C8 in list shape: compounds 1 and 2. *)
Lemma use_prefix_truncates_witness :
  @cids2inchis (Mock.platform inchikey_json []) 1 [1%Z; 2%Z] false true true
    inchikey_server
  = (Ret (PList [PStr "ABCDEF"; PStr "XYZ"]), inchikey_server_after_both).
Proof.
  refine (proj1 (@use_prefix_truncates (Mock.platform inchikey_json []) 1
                   [1%Z; 2%Z] false true inchikey_server
                   inchikey_server_after_both
                   (PList [PStr "ABCDEF-UHFFFAOYSA-N"; PStr "XYZ"]) _ _)).
  - vm_compute. reflexivity.
  - intros v [<-|[<-|[]]]; eexists; reflexivity.
Defined.

(** The same run in dict shape. *)
Example use_prefix_truncates_dict :
  @cids2inchis (Mock.platform inchikey_json []) 1 [1%Z; 2%Z] true true true
    inchikey_server
  = (Ret (PDict [(PInt 1, PStr "ABCDEF"); (PInt 2, PStr "XYZ")]),
     inchikey_server_after_both).
Proof. vm_compute. reflexivity. Qed.

Lemma hyphen_free_XYZ : hyphen_free "XYZ".
Proof. intros [H|[H|[H|[]]]]; discriminate. Qed.

(** A run of C10 on a mixed result: the key of compound 1 has hyphens,
    the key of compound 2 has none and stays. *)
Lemma use_prefix_keeps_hyphen_free_witness :
  (exists result,
     @cids2inchis (Mock.platform inchikey_json []) 1 [1%Z; 2%Z] true true true
       inchikey_server
     = (Ret result, inchikey_server_after_both) /\
     same_shape
       (PDict [(PInt 1, PStr "ABCDEF-UHFFFAOYSA-N"); (PInt 2, PStr "XYZ")])
       result /\
     keys_of result = [PInt 1; PInt 2] /\
     Forall2 kept_if_hyphen_free
       [PStr "ABCDEF-UHFFFAOYSA-N"; PStr "XYZ"] (values_of result) /\
     ((forall v, In v [PStr "ABCDEF-UHFFFAOYSA-N"; PStr "XYZ"] ->
         exists s, v = PStr s /\ hyphen_free s) ->
      result
      = PDict [(PInt 1, PStr "ABCDEF-UHFFFAOYSA-N"); (PInt 2, PStr "XYZ")])) /\
  (forall s, hyphen_free s -> inchikey_prefix (PStr s) = Ret (PStr s)).
Proof.
  apply (@use_prefix_keeps_hyphen_free (Mock.platform inchikey_json [])
           1 [1%Z; 2%Z] true true inchikey_server inchikey_server_after_both
           (PDict [(PInt 1, PStr "ABCDEF-UHFFFAOYSA-N"); (PInt 2, PStr "XYZ")])).
  - vm_compute. reflexivity.
  - intros v [<-|[<-|[]]]; eexists; reflexivity.
Defined.

(** The value without a hyphen is where it was, in both shapes. *)
Example use_prefix_mixed_list :
  obind (fst (@cids2inchis (Mock.platform inchikey_json []) 1 [1%Z; 2%Z]
                false true true inchikey_server))
        (fun result => py_getitem result (PInt 1))
  = Ret (PStr "XYZ").
Proof. vm_compute. reflexivity. Qed.

Example use_prefix_mixed_dict :
  obind (fst (@cids2inchis (Mock.platform inchikey_json []) 1 [1%Z; 2%Z]
                true true true inchikey_server))
        (fun result => py_getitem result (PInt 2))
  = Ret (PStr "XYZ").
Proof. vm_compute. reflexivity. Qed.

Example use_prefix_keeps_hyphen_free_dict :
  @cids2inchis (Mock.platform inchikey_json []) 1 [2%Z] true true true
    inchikey_server
  = (Ret (PDict [(PInt 2, PStr "XYZ")]), inchikey_server_after_2).
Proof. vm_compute. reflexivity. Qed.

Example use_prefix_keeps_hyphen_free_list :
  @cids2inchis (Mock.platform inchikey_json []) 1 [2%Z] false true true
    inchikey_server
  = (Ret (PList [PStr "XYZ"]), inchikey_server_after_2).
Proof. vm_compute. reflexivity. Qed.

(** * cid2smile *)

Lemma seq_index_head {A} (x : A) (l : list A) : seq_index (x :: l) 0 = Ret x.
Proof. reflexivity. Qed.

Lemma seq_index_nil {A} (i : Z) : seq_index (@nil A) i = Raise IndexError.
Proof.
  unfold seq_index. cbn [length Z.of_nat].
  destruct (Z.ltb_spec i 0) as [Hneg|Hpos].
  - rewrite Z.add_0_r. destruct (Z.ltb_spec i 0); [reflexivity | lia].
  - destruct (Z.ltb_spec i 0); [lia|]. cbn.
    destruct (Z.leb_spec 0 i); [reflexivity | lia].
Qed.

Section Cid2Smile.

Context `{P : Platform}.

Lemma bind_run {A B} (c : M A) (k : A -> M B) (w w1 : World) (a : A) :
  c w = (Ret a, w1) -> bind c k w = k a w1.
Proof. intro H. unfold bind. now rewrite H. Qed.

(** C7. [cid2smile] returns [np.nan] when the fetch gives [None], which is
    what a 404 gives; on a body it parses the document and returns the
    first text node of the first [CanonicalSMILES] element in the PubChem
    namespace; and when the document has no such element, indexing the
    empty list of matches raises [IndexError].  A body that is not XML
    raises what the parser raises. *)
Theorem cid2smile_outcomes (fuel : nat) (cid : string) (w w' : World) :
  (__safe_urlopen__ fuel (smiles_url cid) w = (Ret None, w') ->
   cid2smile fuel cid w = (Ret np_nan, w')) /\
  (forall r, requests_get (smiles_url cid) w = (Ret r, w') ->
     status_code r = 404%Z ->
     cid2smile (S fuel) cid w = (Ret np_nan, w')) /\
  (forall xml root,
     __safe_urlopen__ fuel (smiles_url cid) w = (Ret (Some xml), w') ->
     etree_fromstring xml = Ret root ->
     (forall element others SMILE texts,
        findall root smiles_path = element :: others ->
        xpath element ".//text()" = SMILE :: texts ->
        cid2smile fuel cid w = (Ret (PStr SMILE), w')) /\
     (findall root smiles_path = [] ->
      cid2smile fuel cid w = (Raise IndexError, w'))) /\
  (forall xml e,
     __safe_urlopen__ fuel (smiles_url cid) w = (Ret (Some xml), w') ->
     etree_fromstring xml = Raise e ->
     cid2smile fuel cid w = (Raise e, w')).
Proof.
  split; [|split; [|split]].
  - intro Hfetch. unfold cid2smile. now rewrite (bind_run _ _ _ _ _ Hfetch).
  - intros r Hget H404. unfold cid2smile.
    rewrite (bind_run _ _ w w' None); [reflexivity|].
    rewrite (safe_urlopen_step _ _ _ _ _ Hget).
    unfold retry_delay. now rewrite H404.
  - intros xml root Hfetch Hparse. split.
    + intros element others SMILE texts Hfind Htext. unfold cid2smile.
      rewrite (bind_run _ _ _ _ _ Hfetch). unfold bind, lift, ret.
      now rewrite Hparse, Hfind, seq_index_head, Htext.
    + intro Hfind. unfold cid2smile.
      rewrite (bind_run _ _ _ _ _ Hfetch). unfold bind, lift.
      now rewrite Hparse, Hfind.
  - intros xml e Hfetch Hparse. unfold cid2smile.
    rewrite (bind_run _ _ _ _ _ Hfetch). unfold bind, lift.
    now rewrite Hparse.
Qed.

End Cid2Smile.

(** Runs of C7: compound 999 is unknown to the server (404); compound 702
    is ethanol; a document without the element fails. *)
Lemma cid2smile_outcomes_witness :
  @cid2smile (Mock.platform [] smiles_xml) 1 "999" (Mock.server [])
  = (Ret np_nan, Mock.mkWorld [] (fun _ => Mock.not_found) 0 1).
Proof.
  refine (proj1 (@cid2smile_outcomes (Mock.platform [] smiles_xml) 1 "999"
                   (Mock.server []) _) _).
  reflexivity.
Defined.

Example cid2smile_ethanol :
  fst (@cid2smile (Mock.platform [] smiles_xml) 1 "702"
         (Mock.server [(smiles_url "702", [mkResponse 200 ethanol_body])]))
  = Ret (PStr "CCO").
Proof. vm_compute. reflexivity. Qed.

Example cid2smile_no_element :
  fst (@cid2smile (Mock.platform [] smiles_xml) 1 "702"
         (Mock.server [(smiles_url "702", [mkResponse 200 bare_body])]))
  = Raise IndexError.
Proof. vm_compute. reflexivity. Qed.

(** * mesh2pid *)

(** A pure call whose outcome is known runs and hands on its value. *)
Ltac run_lift H := rewrite H, bind_lift_ret; cbv beta.

Section Mesh2Pid.

Context `{P : Platform}.

(** The two cases in which [mesh2pid] does return the record without
    ids: the search fetch gives [None], or the decoded count is equal to
    the int 0.  The record maps the term to ['mesh'] the term and
    [np.nan] as both ['sid'] and ['cid']. *)
Theorem mesh2pid_absent (fuel : nat) (mesh : string) (w w' : World) :
  (__safe_urlopen__ fuel (esearch_url mesh) w = (Ret None, w') ->
   mesh2pid fuel mesh w = (Ret (mesh_record mesh np_nan np_nan), w')) /\
  (forall body j esearchresult count,
     __safe_urlopen__ fuel (esearch_url mesh) w = (Ret (Some body), w') ->
     json_loads body = Ret j ->
     py_getitem j (PStr "esearchresult") = Ret esearchresult ->
     py_getitem esearchresult (PStr "count") = Ret count ->
     py_eq count (PInt 0) = true ->
     mesh2pid fuel mesh w = (Ret (mesh_record mesh np_nan np_nan), w')).
Proof.
  split.
  - intro Hfetch. unfold mesh2pid. now rewrite (bind_run _ _ _ _ _ Hfetch).
  - intros body j esearchresult count Hfetch Hjson Hres Hcount Hzero.
    unfold mesh2pid. rewrite (bind_run _ _ _ _ _ Hfetch).
    unfold bind, lift. now rewrite Hjson, Hres, Hcount, Hzero.
Qed.

(** The defect of line 213: a search with a hit whose substance record
    the fetcher reports as [None]. *)
Lemma mesh2pid_unbound_cid (fuel : nat) (mesh : string) (w w1 w2 : World)
  (body : string) (j esearchresult count idlist sid : pyval) :
  __safe_urlopen__ fuel (esearch_url mesh) w = (Ret (Some body), w1) ->
  json_loads body = Ret j ->
  py_getitem j (PStr "esearchresult") = Ret esearchresult ->
  py_getitem esearchresult (PStr "count") = Ret count ->
  py_eq count (PInt 0) = false ->
  py_getitem esearchresult (PStr "idlist") = Ret idlist ->
  py_getitem idlist (PInt 0) = Ret sid ->
  __safe_urlopen__ fuel (substance_url sid) w1 = (Ret None, w2) ->
  mesh2pid fuel mesh w = (Raise UnboundLocalError, w2).
Proof.
  intros Hfetch Hjson Hres Hcount Hnz Hids Hsid Hsub.
  unfold mesh2pid. rewrite (bind_run _ _ _ _ _ Hfetch).
  cbv beta iota.
  run_lift Hjson. run_lift Hres. run_lift Hcount.
  rewrite Hnz. cbn [negb].
  rewrite bind_lift_ret. cbv beta.
  run_lift Hids. run_lift Hsid.
  now rewrite (bind_run _ _ _ _ _ Hsub).
Qed.

(** Whenever [mesh2pid] returns, it returns a single-entry mapping keyed
    by the term, with the fields ['mesh'], ['sid'] and ['cid']. *)
Lemma mesh2pid_shape (fuel : nat) (mesh : string) (w w' : World) (v : pyval) :
  mesh2pid fuel mesh w = (Ret v, w') ->
  exists sid cid, v = mesh_record mesh sid cid.
Proof.
  unfold mesh2pid. intro Hrun.
  apply bind_ret_inv in Hrun as ([body|] & w1 & _ & Hrun).
  2:{ unfold ret in Hrun. injection Hrun as <- _. now eexists _, _. }
  apply bind_ret_inv in Hrun as (j & w2 & _ & Hrun).
  apply bind_ret_inv in Hrun as (er & w3 & _ & Hrun).
  apply bind_ret_inv in Hrun as (count & w4 & _ & Hrun).
  destruct (negb (py_eq count (PInt 0))).
  2:{ unfold ret in Hrun. injection Hrun as <- _. now eexists _, _. }
  apply bind_ret_inv in Hrun as (er' & w5 & _ & Hrun).
  apply bind_ret_inv in Hrun as (idlist & w6 & _ & Hrun).
  apply bind_ret_inv in Hrun as (sid & w7 & _ & Hrun).
  apply bind_ret_inv in Hrun as ([xml|] & w8 & _ & Hrun); [|discriminate].
  apply bind_ret_inv in Hrun as (root & w9 & _ & Hrun).
  apply bind_ret_inv in Hrun as (cid & w10 & _ & Hrun).
  unfold ret in Hrun. injection Hrun as <- _. now eexists _, _.
Qed.

End Mesh2Pid.

(** A search whose answer carries the count as the int 0. *)
Lemma mesh2pid_absent_witness :
  @mesh2pid (Mock.platform esearch_json []) 1 "nonexistent-term" esearch_server
  = (Ret (PDict [(PStr "nonexistent-term",
                  PDict [(PStr "mesh", PStr "nonexistent-term");
                         (PStr "sid", np_nan); (PStr "cid", np_nan)])]),
     Mock.mkWorld
       [(esearch_url "nonexistent-term", []);
        (esearch_url "aspirin", [mkResponse 200 one_hit_body])]
       (fun _ => Mock.not_found) 0 1).
Proof.
  refine (proj2 (@mesh2pid_absent (Mock.platform esearch_json []) 1
                   "nonexistent-term" esearch_server _)
                no_hits_body (esearch_result (PInt 0) [])
                (PDict [(PStr "count", PInt 0); (PStr "idlist", PList [])])
                (PInt 0) _ _ _ _ _);
    reflexivity.
Defined.

Example mesh2pid_fetch_absent :
  fst (@mesh2pid (Mock.platform esearch_json []) 1 "unknown-to-the-server"
         esearch_server)
  = Ret (mesh_record "unknown-to-the-server" np_nan np_nan).
Proof. vm_compute. reflexivity. Qed.

(** C5. E-utilities delivers the count as a string.  The test of line 204
    is [!= 0] against the int 0, which no string equals, so a search
    without results (count ['0'], empty id list) is not taken for one:
    the code goes on to [idlist[0]] and raises [IndexError] where the
    claim has it return the record without ids. *)
Theorem mesh2pid_zero_count_raises :
  (forall s, negb (py_eq (PStr s) (PInt 0)) = true) /\
  @mesh2pid (Mock.platform string_zero_json []) 1 "nonexistent-term"
    (Mock.server [(esearch_url "nonexistent-term",
                   [mkResponse 200 string_zero_body])])
  = (Raise IndexError,
     Mock.mkWorld [(esearch_url "nonexistent-term", [])]
                  (fun _ => Mock.not_found) 0 1).
Proof. split; [reflexivity | vm_compute; reflexivity]. Qed.

(** The same on another term. *)
Example mesh2pid_string_zero_count :
  fst (@mesh2pid (Mock.platform string_zero_json []) 1 "nothing"
         (Mock.server [(esearch_url "nothing",
                        [mkResponse 200 string_zero_body])]))
  = Raise IndexError.
Proof. vm_compute. reflexivity. Qed.

(** C4. The search for aspirin finds substance 123, the server answers
    404 for that substance, and [mesh2pid] raises [UnboundLocalError]
    where the claim has it return the record of the term. *)
Theorem mesh2pid_raises_on_absent_substance :
  fst (@mesh2pid (Mock.platform esearch_json []) 1 "aspirin" esearch_server)
  = Raise UnboundLocalError.
Proof.
  erewrite (@mesh2pid_unbound_cid (Mock.platform esearch_json []) 1 "aspirin"
              esearch_server _ _ one_hit_body
              (esearch_result (PStr "1") [PStr "123"])
              (PDict [(PStr "count", PStr "1");
                      (PStr "idlist", PList [PStr "123"])])
              (PStr "1") (PList [PStr "123"]) (PStr "123"));
    reflexivity.
Qed.

(** * Missing property fields *)

Lemma safe_object_access_dict (d : list (pyval * pyval)) (key : string) :
  __safe_object_access__ (PDict d) (PStr key)
  = Ret (match dict_lookup (PStr key) d with
         | Some v => v
         | None => np_nan
         end).
Proof.
  unfold __safe_object_access__, py_contains, py_getitem. cbn [hashable obind].
  destruct (dict_lookup (PStr key) d); reflexivity.
Qed.

Lemma getitem_dict_missing (d : list (pyval * pyval)) (key : string) :
  dict_lookup (PStr key) d = None ->
  py_getitem (PDict d) (PStr key) = Raise KeyError.
Proof. intro H. cbn. now rewrite H. Qed.

(** In [cids2upacs] an object without ['IUPACName'] yields [np.nan]: the
    comprehension over objects never fails. *)
Lemma upacs_comprehension_total (ps : list pyval) :
  Forall is_dict ps ->
  list_comprehension (fun p => __safe_object_access__ p (PStr "IUPACName")) ps
  = Ret (map iupac_or_nan ps).
Proof.
  induction 1 as [|p ps [d ->] _ IH]; [reflexivity|].
  cbn [list_comprehension map]. rewrite safe_object_access_dict, IH.
  reflexivity.
Qed.

(** In [cids2inchis] the same object makes the comprehension raise. *)
Lemma inchis_comprehension_raises (query_type : string)
  (d : list (pyval * pyval)) (ps : list pyval) :
  dict_lookup (PStr query_type) d = None ->
  list_comprehension (fun p => py_getitem p (PStr query_type)) (PDict d :: ps)
  = Raise KeyError.
Proof.
  intro H. cbn [list_comprehension]. now rewrite getitem_dict_missing.
Qed.

(** C6. PubChem answers for compound 5 with an object that has the CID
    but not the requested property.  [cids2upacs] puts [np.nan] in its
    place, in both shapes; [cids2inchis], which indexes the object
    directly, raises [KeyError] in both shapes, for InChIKey and for
    InChI. *)
Theorem cids2inchis_raises_on_missing_property :
  fst (@cids2upacs (Mock.platform missing_json []) 1 [5%Z] false missing_server)
  = Ret (PList [np_nan]) /\
  fst (@cids2upacs (Mock.platform missing_json []) 1 [5%Z] true missing_server)
  = Ret (PDict [(PInt 5, np_nan)]) /\
  fst (@cids2inchis (Mock.platform missing_json []) 1 [5%Z] false false true
         missing_server)
  = Raise KeyError /\
  fst (@cids2inchis (Mock.platform missing_json []) 1 [5%Z] true false true
         missing_server)
  = Raise KeyError /\
  fst (@cids2inchis (Mock.platform missing_json []) 1 [5%Z] false false false
         missing_server)
  = Raise KeyError.
Proof. repeat split; vm_compute; reflexivity. Qed.

(** X22. The resolvers inherit the batcher's failure on no identifiers:
    both raise [ValueError] before any request is made. *)
Lemma resolvers_raise_on_no_cids `{P : Platform} (fuel : nat)
  (as_dict use_prefix keys : bool) (w : World) :
  cids2inchis fuel [] as_dict use_prefix keys w = (Raise ValueError, w) /\
  cids2upacs fuel [] as_dict w = (Raise ValueError, w).
Proof. split; reflexivity. Qed.

(** * Further properties of the batcher *)

Lemma num_divisions_small (n : nat) :
  0 < n -> n <= 100 -> num_divisions_of n = 1.
Proof. intros H0 H100. pose proof (num_divisions_ceil n). lia. Qed.

Lemma num_divisions_hundreds (k : nat) : num_divisions_of (100 * k) = k.
Proof. pose proof (num_divisions_ceil (100 * k)). lia. Qed.

Lemma divide_list_one_division {A} (ids : list A) :
  ids <> [] -> num_divisions_of (length ids) = 1 ->
  __divide_list__ ids = Ret [ids].
Proof.
  intros Hne Hone. rewrite (divide_list_sizes ids Hne), Hone.
  unfold chunk_sizes. rewrite Nat.div_1_r, Nat.mod_1_r.
  cbn [repeat app Nat.sub split_sizes]. now rewrite firstn_all.
Qed.

(** X1. A list of 1 to 100 identifiers is one chunk: the list itself. *)
Theorem divide_list_single_chunk {A} (ids : list A) :
  ids <> [] -> length ids <= 100 -> __divide_list__ ids = Ret [ids].
Proof.
  intros Hne Hlen. apply divide_list_one_division; [assumption|].
  apply num_divisions_small; [|assumption].
  destruct ids; [congruence | cbn; lia].
Qed.

Lemma divide_list_single_chunk_witness :
  __divide_list__ ["2244"; "702"; "5793"] = Ret [["2244"; "702"; "5793"]].
Proof.
  apply (divide_list_single_chunk ["2244"; "702"; "5793"]).
  - discriminate.
  - cbn. lia.
Defined.

(** X2. A list of [100 * k] identifiers, [k > 0], is cut into [k] chunks
    of exactly 100. *)
Theorem divide_list_exact_hundreds {A} (ids : list A) (k : nat) :
  0 < k -> length ids = 100 * k ->
  exists chunks : list (list A),
    __divide_list__ ids = Ret chunks /\
    length chunks = k /\
    Forall (fun c => length c = 100) chunks /\
    concat chunks = ids.
Proof.
  intros Hk Hlen.
  assert (ids <> []) as Hne by (intros ->; cbn in Hlen; lia).
  exists (split_sizes (repeat 100 k) ids).
  assert (chunk_sizes (100 * k) k = repeat 100 k) as Hsizes.
  { unfold chunk_sizes.
    rewrite Nat.Div0.mod_mul, Nat.div_mul by lia.
    cbn [repeat app]. now rewrite Nat.sub_0_r. }
  assert (map (@length A) (split_sizes (repeat 100 k) ids) = repeat 100 k)
    as Hlens by (apply length_split_sizes; rewrite list_sum_repeat; lia).
  repeat split.
  - rewrite (divide_list_sizes ids Hne), Hlen, num_divisions_hundreds.
    now rewrite Hsizes.
  - now rewrite <- (length_map (@length A)), Hlens, repeat_length.
  - apply Forall_map with (f := @length A) (P := fun s => s = 100).
    rewrite Hlens. now apply Forall_repeat.
  - apply concat_split_sizes. rewrite list_sum_repeat. lia.
Qed.

Lemma divide_list_exact_hundreds_witness :
  exists chunks : list (list nat),
    __divide_list__ (seq 0 300) = Ret chunks /\
    length chunks = 3 /\
    Forall (fun c => length c = 100) chunks /\
    concat chunks = seq 0 300.
Proof.
  apply (divide_list_exact_hundreds (seq 0 300) 3).
  - lia.
  - reflexivity.
Defined.

(** X3. No chunk of a non-empty list is empty, so no query is built for
    an empty batch. *)
Theorem divide_list_no_empty_chunk {A} (ids : list A) :
  ids <> [] ->
  exists chunks : list (list A),
    __divide_list__ ids = Ret chunks /\ Forall (fun c => c <> []) chunks.
Proof.
  intro Hne.
  set (n := length ids). set (k := num_divisions_of n).
  exists (split_sizes (chunk_sizes n k) ids).
  split; [now apply divide_list_sizes|].
  pose proof (num_divisions_ceil n) as [Hle Hlt]. fold k in Hle, Hlt.
  assert (0 < n) as Hn by (destruct ids; [congruence | cbn; lia]).
  assert (0 < k) as Hk by lia.
  assert (1 <= n / k) as Hdiv.
  { pose proof (Nat.div_mod_eq n k). pose proof (Nat.mod_upper_bound n k).
    destruct (n / k); [nia | lia]. }
  assert (Forall (fun c => 1 <= length c) (split_sizes (chunk_sizes n k) ids))
    as Hpos.
  { apply Forall_map with (f := @length A) (P := fun s => 1 <= s).
    rewrite length_split_sizes by (rewrite chunk_sizes_sum; subst n; lia).
    unfold chunk_sizes. apply Forall_app.
    split; apply Forall_repeat; lia. }
  eapply Forall_impl; [|exact Hpos].
  intros c Hc ->. cbn in Hc. lia.
Qed.

Lemma divide_list_no_empty_chunk_witness :
  exists chunks : list (list nat),
    __divide_list__ (seq 0 101) = Ret chunks /\ Forall (fun c => c <> []) chunks.
Proof. apply (divide_list_no_empty_chunk (seq 0 101)). discriminate. Defined.

(** * Further properties of the fetcher *)

Section FetcherInversion.

Context `{P : Platform}.

Lemma safe_urlopen_step_raise (fuel : nat) (url : string) (w w1 : World)
  (e : exn) :
  requests_get url w = (Raise e, w1) ->
  __safe_urlopen__ (S fuel) url w = (Raise e, w1).
Proof.
  intro Hget. cbn [__safe_urlopen__]. unfold bind at 1. now rewrite Hget.
Qed.

Lemma safe_urlopen_step_hang (fuel : nat) (url : string) (w w1 : World) :
  requests_get url w = (OutOfFuel, w1) ->
  __safe_urlopen__ (S fuel) url w = (OutOfFuel, w1).
Proof.
  intro Hget. cbn [__safe_urlopen__]. unfold bind at 1. now rewrite Hget.
Qed.

(** X4. Every value the fetcher returns is explained by the responses:
    some run of 429 and 503 answers, shorter than the stack is deep, was
    followed by an answer with another status, and the value is that
    answer's body if its status is 200 and [None] otherwise. *)
Theorem safe_urlopen_return_inv (fuel : nat) (url : string) (w w' : World)
  (v : option string) :
  __safe_urlopen__ fuel url w = (Ret v, w') ->
  exists delays w1 r,
    busy_run url w delays w1 /\
    requests_get url w1 = (Ret r, w') /\
    length delays < fuel /\
    status_code r <> 429%Z /\ status_code r <> 503%Z /\
    v = if (status_code r =? 200)%Z then Some (content r) else None.
Proof.
  revert w. induction fuel as [|fuel IH]; intros w Hrun; [discriminate|].
  destruct (requests_get url w) as [o w1] eqn:Hget.
  destruct o as [r|e|].
  - rewrite (safe_urlopen_step _ _ _ _ _ Hget) in Hrun.
    destruct (retry_delay (status_code r)) as [d|] eqn:Hd.
    + destruct (IH _ Hrun) as (ds & w2 & r2 & Hbusy & Hget2 & Hlen & Hrest).
      exists (d :: ds), w2, r2. repeat split; try apply Hrest; try assumption.
      * eapply busy_retry; eassumption.
      * cbn. lia.
    + injection Hrun as <- <-.
      exists [], w, r. unfold retry_delay in Hd.
      destruct (Z.eqb_spec (status_code r) 429); [discriminate|].
      destruct (Z.eqb_spec (status_code r) 503); [discriminate|].
      repeat split; try assumption; [constructor | cbn; lia].
  - rewrite (safe_urlopen_step_raise _ _ _ _ _ Hget) in Hrun. discriminate.
  - rewrite (safe_urlopen_step_hang _ _ _ _ Hget) in Hrun. discriminate.
Qed.

(** X5. The fetcher raises nothing of its own: an exception that leaves
    it was raised by [requests.get], on the first request or on a retry. *)
Theorem safe_urlopen_raise_inv (fuel : nat) (url : string) (w w' : World)
  (e : exn) :
  __safe_urlopen__ fuel url w = (Raise e, w') ->
  exists delays w1,
    busy_run url w delays w1 /\ requests_get url w1 = (Raise e, w').
Proof.
  revert w. induction fuel as [|fuel IH]; intros w Hrun; [discriminate|].
  destruct (requests_get url w) as [o w1] eqn:Hget.
  destruct o as [r|e0|].
  - rewrite (safe_urlopen_step _ _ _ _ _ Hget) in Hrun.
    destruct (retry_delay (status_code r)) as [d|] eqn:Hd; [|discriminate].
    destruct (IH _ Hrun) as (ds & w2 & Hbusy & Hget2).
    exists (d :: ds), w2. split; [|assumption].
    eapply busy_retry; eassumption.
  - rewrite (safe_urlopen_step_raise _ _ _ _ _ Hget) in Hrun.
    injection Hrun as -> <-.
    exists [], w. split; [constructor | assumption].
  - rewrite (safe_urlopen_step_hang _ _ _ _ Hget) in Hrun. discriminate.
Qed.

(** X6. A deeper stack changes nothing once the fetcher has come back:
    if the call ends with a value or an exception, it ends the same way,
    in the same world, with any larger fuel. *)
Theorem safe_urlopen_more_fuel (fuel extra : nat) (url : string) (w : World) :
  fst (__safe_urlopen__ fuel url w) <> OutOfFuel ->
  __safe_urlopen__ (fuel + extra) url w = __safe_urlopen__ fuel url w.
Proof.
  revert w. induction fuel as [|fuel IH]; intros w Hdone.
  - now destruct Hdone.
  - cbn [Nat.add].
    destruct (requests_get url w) as [o w1] eqn:Hget.
    destruct o as [r|e|].
    + rewrite !(safe_urlopen_step _ _ _ _ _ Hget) in *.
      destruct (retry_delay (status_code r)); [now apply IH | reflexivity].
    + now rewrite !(safe_urlopen_step_raise _ _ _ _ _ Hget).
    + now rewrite !(safe_urlopen_step_hang _ _ _ _ Hget).
Qed.

End FetcherInversion.

(** Runs of X4, X5 and X6. *)
Lemma safe_urlopen_return_inv_witness :
  exists delays w1 r,
    @busy_run (Mock.platform [] []) "u"
      (Mock.server [("u", [mkResponse 429 "slow down"; mkResponse 200 "body"])])
      delays w1 /\
    Mock.get "u" w1
    = (Ret r, Mock.mkWorld [("u", [])] (fun _ => Mock.not_found) 500 2) /\
    length delays < 2 /\
    status_code r <> 429%Z /\ status_code r <> 503%Z /\
    Some "body" = if (status_code r =? 200)%Z then Some (content r) else None.
Proof.
  apply (@safe_urlopen_return_inv (Mock.platform [] []) 2 "u"
           (Mock.server [("u", [mkResponse 429 "slow down";
                                mkResponse 200 "body"])])).
  reflexivity.
Defined.

Lemma safe_urlopen_raise_inv_witness :
  exists delays w1,
    @busy_run flaky_platform "u"
      (Mock.server [("u", [mkResponse 503 "busy"])]) delays w1 /\
    flaky_get "u" w1
    = (Raise RequestException,
       Mock.mkWorld [("u", [])] (fun _ => Mock.not_found) 1000 2).
Proof.
  apply (@safe_urlopen_raise_inv flaky_platform 2 "u"
           (Mock.server [("u", [mkResponse 503 "busy"])])).
  reflexivity.
Defined.

Lemma safe_urlopen_more_fuel_witness :
  @__safe_urlopen__ (Mock.platform [] []) (2 + 40) "u"
    (Mock.server [("u", [mkResponse 429 "slow down"; mkResponse 200 "body"])])
  = @__safe_urlopen__ (Mock.platform [] []) 2 "u"
      (Mock.server [("u", [mkResponse 429 "slow down"; mkResponse 200 "body"])]).
Proof.
  apply (@safe_urlopen_more_fuel (Mock.platform [] []) 2 40 "u").
  cbn. discriminate.
Defined.

(** * Further properties of the property resolvers *)

Section ResolverFacts.

Context `{P : Platform}.

Lemma bind_raise {A B} (c : M A) (k : A -> M B) (w w' : World) (e : exn) :
  c w = (Raise e, w') -> bind c k w = (Raise e, w').
Proof. intro H. unfold bind. now rewrite H. Qed.

(** X7. When the fetch of the first batch gives [None] (PubChem answers
    404 for an unknown compound), both property resolvers hand [None] to
    [json.loads] and raise [TypeError], in either shape. *)
Theorem resolvers_raise_on_absent_batch (fuel : nat) (cids : list Z)
  (ids : list string) (rest : list (list string)) (w w' : World) :
  __divide_list__ (map py_str_int cids) = Ret (ids :: rest) ->
  (forall as_dict,
     __safe_urlopen__ fuel (pubchem_cid_url ids "IUPACName") w = (Ret None, w') ->
     cids2upacs fuel cids as_dict w = (Raise TypeError, w')) /\
  (forall as_dict use_prefix (keys : bool),
     __safe_urlopen__ fuel
       (pubchem_cid_url ids (if keys then "InChIKey" else "InChI")) w
     = (Ret None, w') ->
     cids2inchis fuel cids as_dict use_prefix keys w = (Raise TypeError, w')).
Proof.
  intro Hdiv. split.
  - intros as_dict Hfetch. unfold cids2upacs.
    rewrite Hdiv, bind_lift_ret. cbn [for_each]. apply bind_raise.
    unfold cids2upacs_step. rewrite (bind_run _ _ _ _ _ Hfetch).
    destruct as_dict; reflexivity.
  - intros as_dict use_prefix keys Hfetch. unfold cids2inchis.
    apply bind_raise. unfold cids2inchis_loop.
    rewrite Hdiv, bind_lift_ret. cbn [for_each]. apply bind_raise.
    unfold cids2inchis_step. rewrite (bind_run _ _ _ _ _ Hfetch).
    destruct as_dict; reflexivity.
Qed.

Lemma py_update_shape (acc : pyval) (new_dict : list (pyval * pyval))
  (acc' : pyval) :
  py_update acc new_dict = Ret acc' ->
  shape_ok true acc -> dict_wf new_dict -> shape_ok true acc'.
Proof.
  intros Hrun (d & -> & Hwf) Hnew. cbn in Hrun. injection Hrun as <-.
  eexists. split; [reflexivity|].
  apply dict_update_wf; [now apply dict_wf_hashable | exact Hwf].
Qed.

Lemma py_iadd_shape (acc : pyval) (new_list : list pyval) (acc' : pyval) :
  py_iadd acc new_list = Ret acc' -> shape_ok false acc -> shape_ok false acc'.
Proof.
  intros Hrun (l & ->). cbn in Hrun. injection Hrun as <-. now eexists.
Qed.

Lemma shape_ok_start (as_dict : bool) :
  shape_ok as_dict (if as_dict then PDict [] else PList []).
Proof.
  destruct as_dict; cbn; eexists; [split; [reflexivity | constructor] | reflexivity].
Qed.

Lemma cids2upacs_step_shape (fuel : nat) (as_dict : bool)
  (acc : pyval) (ids : list string) (w : World) (acc' : pyval) (w' : World) :
  cids2upacs_step fuel as_dict acc ids w = (Ret acc', w') ->
  shape_ok as_dict acc -> shape_ok as_dict acc'.
Proof.
  unfold cids2upacs_step. intros Hrun Hshape.
  apply bind_ret_inv in Hrun as (r & w1 & _ & Hrun).
  destruct as_dict.
  - apply bind_ret_inv in Hrun as (ps & w2 & _ & Hrun).
    apply bind_ret_inv in Hrun as (new_dict & w3 & Hnew & Hrun).
    apply lift_ret_inv in Hnew as [Hnew _].
    apply lift_ret_inv in Hrun as [Hrun _].
    apply dict_comprehension_wf in Hnew; [|constructor].
    eapply py_update_shape; eassumption.
  - apply bind_ret_inv in Hrun as (ps & w2 & _ & Hrun).
    apply bind_ret_inv in Hrun as (new_list & w3 & _ & Hrun).
    apply lift_ret_inv in Hrun as [Hrun _].
    eapply py_iadd_shape; eassumption.
Qed.

Lemma cids2inchis_step_shape (fuel : nat) (as_dict keys : bool)
  (acc : pyval) (ids : list string) (w : World) (acc' : pyval) (w' : World) :
  cids2inchis_step fuel as_dict keys acc ids w = (Ret acc', w') ->
  shape_ok as_dict acc -> shape_ok as_dict acc'.
Proof.
  unfold cids2inchis_step. intros Hrun Hshape.
  apply bind_ret_inv in Hrun as (r & w1 & _ & Hrun).
  destruct as_dict.
  - apply bind_ret_inv in Hrun as (ps & w2 & _ & Hrun).
    apply bind_ret_inv in Hrun as (new_dict & w3 & Hnew & Hrun).
    apply lift_ret_inv in Hnew as [Hnew _].
    apply lift_ret_inv in Hrun as [Hrun _].
    apply dict_comprehension_wf in Hnew; [|constructor].
    eapply py_update_shape; eassumption.
  - apply bind_ret_inv in Hrun as (ps & w2 & _ & Hrun).
    apply bind_ret_inv in Hrun as (new_list & w3 & _ & Hrun).
    apply lift_ret_inv in Hrun as [Hrun _].
    eapply py_iadd_shape; eassumption.
Qed.

Lemma take_prefixes_shape (as_dict : bool) (inchikeys v : pyval) :
  take_prefixes inchikeys = Ret v ->
  shape_ok as_dict inchikeys -> shape_ok as_dict v.
Proof.
  intros Hrun Hshape. destruct as_dict.
  - destruct Hshape as (d & -> & _). cbn [take_prefixes] in Hrun.
    destruct (dict_comprehension _ _ d []) as [d'| |] eqn:Hd; try discriminate.
    cbn [obind] in Hrun. injection Hrun as <-.
    exists d'. split; [reflexivity|].
    eapply dict_comprehension_wf; [exact Hd | constructor].
  - destruct Hshape as (l & ->). cbn [take_prefixes py_iter obind] in Hrun.
    destruct (list_comprehension inchikey_prefix l) as [l'| |];
      try discriminate.
    cbn [obind] in Hrun. injection Hrun as <-. now eexists.
Qed.

(** X8. What [cids2upacs] returns has the shape [as_dict] asks for: a dict
    whose keys are hashable and pairwise different, or a list. *)
Theorem cids2upacs_result_shape (fuel : nat) (cids : list Z) (as_dict : bool)
  (w w' : World) (upacs : pyval) :
  cids2upacs fuel cids as_dict w = (Ret upacs, w') ->
  shape_ok as_dict upacs.
Proof.
  unfold cids2upacs. intro Hrun.
  apply bind_ret_inv in Hrun as (chunks & w1 & _ & Hrun).
  apply (for_each_invariant (shape_ok as_dict) _
           (cids2upacs_step_shape fuel as_dict) _ _ _ _ _ Hrun).
  apply shape_ok_start.
Qed.

(** X9. What [cids2inchis] returns has the shape [as_dict] asks for, with
    or without [use_prefix]. *)
Theorem cids2inchis_result_shape (fuel : nat) (cids : list Z)
  (as_dict use_prefix keys : bool) (w w' : World) (inchikeys : pyval) :
  cids2inchis fuel cids as_dict use_prefix keys w = (Ret inchikeys, w') ->
  shape_ok as_dict inchikeys.
Proof.
  unfold cids2inchis. intro Hrun.
  apply bind_ret_inv in Hrun as (result & w1 & Hloop & Hrun).
  assert (shape_ok as_dict result) as Hshape.
  { unfold cids2inchis_loop in Hloop.
    apply bind_ret_inv in Hloop as (chunks & w2 & _ & Hloop).
    apply (for_each_invariant (shape_ok as_dict) _
             (cids2inchis_step_shape fuel as_dict keys) _ _ _ _ _ Hloop).
    apply shape_ok_start. }
  destruct use_prefix.
  - apply lift_ret_inv in Hrun as [Hrun _].
    eapply take_prefixes_shape; eassumption.
  - unfold ret in Hrun. now injection Hrun as <- _.
Qed.

End ResolverFacts.

Lemma resolvers_raise_on_absent_batch_witness :
  @cids2upacs (Mock.platform [] []) 1 [7%Z] false (Mock.server [])
  = (Raise TypeError, Mock.mkWorld [] (fun _ => Mock.not_found) 0 1).
Proof.
  refine (proj1 (@resolvers_raise_on_absent_batch (Mock.platform [] []) 1
                   [7%Z] ["7"] [] (Mock.server []) _ _) false _);
    reflexivity.
Defined.

Lemma cids2upacs_result_shape_witness :
  shape_ok true (PDict [(PInt 1, PStr "ethanol"); (PInt 2, np_nan)]).
Proof.
  apply (@cids2upacs_result_shape (Mock.platform names_json []) 1
           [1%Z; 2%Z] true names_server names_server_after_both).
  vm_compute. reflexivity.
Defined.

Lemma cids2inchis_result_shape_witness :
  shape_ok false (PList [PStr "ABCDEF"; PStr "XYZ"]).
Proof.
  apply (@cids2inchis_result_shape (Mock.platform inchikey_json []) 1
           [1%Z; 2%Z] false true true inchikey_server
           inchikey_server_after_both).
  vm_compute. reflexivity.
Defined.

(** * Further properties of the [use_prefix] pass *)

Lemma inchikey_prefix_ret_inv (ikey v : pyval) :
  inchikey_prefix ikey = Ret v -> hyphen_free_str v.
Proof.
  destruct ikey as [| | | |s| |]; try discriminate.
  rewrite inchikey_prefix_str. intros [= <-].
  eexists. split; [reflexivity|].
  apply (proj1 (before_first_spec "-"%char s)).
Qed.

Lemma inchikey_prefix_not_str (ikey : pyval) :
  ~ is_str ikey -> inchikey_prefix ikey = Raise AttributeError.
Proof.
  intro Hno. destruct ikey as [| | | |s| |]; try reflexivity.
  destruct Hno. now exists s.
Qed.

Lemma is_str_dec (v : pyval) : {is_str v} + {~ is_str v}.
Proof.
  destruct v as [| | | |s| |]; try (right; intros [s' H]; discriminate).
  left. now exists s.
Defined.

Lemma list_comprehension_prefix_values (l vs : list pyval) :
  list_comprehension inchikey_prefix l = Ret vs -> Forall hyphen_free_str vs.
Proof.
  revert vs. induction l as [|x l IH]; intros vs Hrun;
    cbn [list_comprehension] in Hrun.
  - injection Hrun as <-. constructor.
  - destruct (inchikey_prefix x) as [v| |] eqn:Hx; try discriminate.
    cbn [obind] in Hrun.
    destruct (list_comprehension inchikey_prefix l) as [vs'| |];
      try discriminate.
    cbn [obind] in Hrun. injection Hrun as <-.
    constructor; [now apply (inchikey_prefix_ret_inv x) | now apply IH].
Qed.

Lemma dict_set_values (Q : pyval -> Prop) (k v : pyval)
  (d : list (pyval * pyval)) :
  Q v -> Forall Q (map snd d) -> Forall Q (map snd (dict_set k v d)).
Proof.
  intros Hv. induction d as [|[k' v'] d IH]; intro Hd; cbn [dict_set].
  - now repeat constructor.
  - cbn [map snd] in Hd. inversion Hd as [|? ? Hv' Hd']; subst.
    destruct (key_match k' k); cbn [map snd]; constructor; auto.
Qed.

Lemma dict_comprehension_prefix_values (items acc d : list (pyval * pyval)) :
  dict_comprehension (fun kv => Ret (fst kv))
    (fun kv => inchikey_prefix (snd kv)) items acc = Ret d ->
  Forall hyphen_free_str (map snd acc) ->
  Forall hyphen_free_str (map snd d).
Proof.
  revert acc. induction items as [|[k x] items IH]; intros acc Hrun Hacc;
    cbn [dict_comprehension obind fst snd] in Hrun.
  - now injection Hrun as <-.
  - destruct (inchikey_prefix x) as [v| |] eqn:Hx; try discriminate.
    cbn [obind] in Hrun. destruct (hashable k); [|discriminate].
    apply (IH _ Hrun). apply dict_set_values; [|assumption].
    now apply (inchikey_prefix_ret_inv x).
Qed.

Lemma take_prefixes_values (inchikeys v : pyval) :
  take_prefixes inchikeys = Ret v -> Forall hyphen_free_str (values_of v).
Proof.
  intro Hrun.
  destruct inchikeys as [| | | |s|l|d]; try discriminate;
    cbn [take_prefixes py_iter obind] in Hrun.
  - destruct (list_comprehension inchikey_prefix (map PStr (chars s)))
      as [vs| |] eqn:Hl; try discriminate.
    cbn [obind] in Hrun. injection Hrun as <-.
    now apply list_comprehension_prefix_values in Hl.
  - destruct (list_comprehension inchikey_prefix l) as [vs| |] eqn:Hl;
      try discriminate.
    cbn [obind] in Hrun. injection Hrun as <-.
    now apply list_comprehension_prefix_values in Hl.
  - destruct (dict_comprehension _ _ d []) as [d'| |] eqn:Hd; try discriminate.
    cbn [obind] in Hrun. injection Hrun as <-.
    apply dict_comprehension_prefix_values in Hd; [exact Hd | constructor].
Qed.

Lemma list_comprehension_prefix_raises (l : list pyval) :
  Exists (fun x => ~ is_str x) l ->
  list_comprehension inchikey_prefix l = Raise AttributeError.
Proof.
  induction l as [|x l IH]; intro Hex; [inversion Hex|].
  cbn [list_comprehension].
  destruct (is_str_dec x) as [[s ->]|Hno].
  - rewrite inchikey_prefix_str. cbn [obind].
    rewrite IH; [reflexivity|].
    inversion Hex as [? ? Hx|? ? Hl]; subst; [|assumption].
    destruct Hx. now exists s.
  - now rewrite (inchikey_prefix_not_str _ Hno).
Qed.

Lemma dict_comprehension_prefix_raises (items acc : list (pyval * pyval)) :
  dict_wf (acc ++ items) ->
  Exists (fun x => ~ is_str x) (map snd items) ->
  dict_comprehension (fun kv => Ret (fst kv))
    (fun kv => inchikey_prefix (snd kv)) items acc = Raise AttributeError.
Proof.
  revert acc. induction items as [|[k x] items IH]; intros acc Hwf Hex;
    [inversion Hex|].
  cbn [dict_comprehension obind fst snd].
  destruct (is_str_dec x) as [[s ->]|Hno].
  - rewrite inchikey_prefix_str. cbn [obind].
    change (acc ++ (k, PStr s) :: items)
      with (acc ++ [(k, PStr s)] ++ items) in Hwf.
    rewrite app_assoc in Hwf.
    destruct (dict_wf_last _ _ _ (dict_wf_front _ _ Hwf)) as (_ & Hh & Hfresh).
    rewrite Hh, (dict_set_fresh _ _ _ Hfresh). apply IH.
    + apply dict_wf_keys with (d := (acc ++ [(k, PStr s)]) ++ items);
        [|assumption].
      rewrite !map_app. reflexivity.
    + cbn [map snd] in Hex.
      inversion Hex as [? ? Hx|? ? Hl]; subst; [|assumption].
      destruct Hx. now exists s.
  - now rewrite (inchikey_prefix_not_str _ Hno).
Qed.

Section PrefixEdges.

Context `{P : Platform}.

(** X10. Whatever [cids2inchis] returns with [use_prefix=True], in either
    shape, every value of it is a string without a hyphen. *)
Theorem use_prefix_values_hyphen_free (fuel : nat) (cids : list Z)
  (as_dict keys : bool) (w w' : World) (inchikeys : pyval) :
  cids2inchis fuel cids as_dict true keys w = (Ret inchikeys, w') ->
  Forall hyphen_free_str (values_of inchikeys).
Proof.
  unfold cids2inchis. intro Hrun.
  apply bind_ret_inv in Hrun as (result & w1 & _ & Hrun).
  apply lift_ret_inv in Hrun as [Hrun _].
  now apply (take_prefixes_values result).
Qed.

(** X11. With [use_prefix=True] a value that is not a string (a null or a
    number in the response) makes [cids2inchis] raise [AttributeError]
    after all batches were fetched, where the same call without the flag
    returns the value. *)
Theorem use_prefix_raises_on_non_string (fuel : nat) (cids : list Z)
  (as_dict keys : bool) (w w' : World) (inchikeys : pyval) :
  cids2inchis fuel cids as_dict false keys w = (Ret inchikeys, w') ->
  Exists (fun v => ~ is_str v) (values_of inchikeys) ->
  cids2inchis fuel cids as_dict true keys w = (Raise AttributeError, w').
Proof.
  rewrite cids2inchis_without_prefix. intros Hloop Hex.
  pose proof (cids2inchis_loop_wf _ _ _ _ _ _ _ Hloop) as Hwf.
  unfold cids2inchis. rewrite (bind_run _ _ _ _ _ Hloop). unfold lift.
  f_equal.
  destruct inchikeys as [| | | | |l|d]; cbn [result_wf] in Hwf;
    try contradiction; cbn [values_of] in Hex;
    cbn [take_prefixes py_iter obind].
  - now rewrite list_comprehension_prefix_raises.
  - now rewrite (dict_comprehension_prefix_raises d []).
Qed.

End PrefixEdges.

Lemma use_prefix_values_hyphen_free_witness :
  Forall hyphen_free_str
    (values_of (PDict [(PInt 1, PStr "ABCDEF"); (PInt 2, PStr "XYZ")])).
Proof.
  apply (@use_prefix_values_hyphen_free (Mock.platform inchikey_json []) 1
           [1%Z; 2%Z] true true inchikey_server inchikey_server_after_both).
  vm_compute. reflexivity.
Defined.

Lemma use_prefix_raises_on_non_string_witness :
  @cids2inchis (Mock.platform null_key_json []) 1 [3%Z] false true true
    null_key_server
  = (Raise AttributeError,
     Mock.mkWorld [(pubchem_cid_url ["3"] "InChIKey", [])]
                  (fun _ => Mock.not_found) 0 1).
Proof.
  refine (@use_prefix_raises_on_non_string (Mock.platform null_key_json []) 1
            [3%Z] false true null_key_server _ (PList [PNone]) _ _).
  - vm_compute. reflexivity.
  - constructor. intros [s H]. discriminate.
Defined.

(** * Further properties of cid2smile and mesh2pid *)

Section XmlResolvers.

Context `{P : Platform}.

(** X12. [cid2smile] returns [np.nan] or a string, and so never the
    [None] its docstring announces for a compound that does not exist. *)
Theorem cid2smile_returns_nan_or_str (fuel : nat) (cid : string)
  (w w' : World) (v : pyval) :
  cid2smile fuel cid w = (Ret v, w') ->
  (v = np_nan \/ is_str v) /\ v <> PNone.
Proof.
  unfold cid2smile. intro Hrun.
  apply bind_ret_inv in Hrun as ([xml|] & w1 & _ & Hrun).
  - apply bind_ret_inv in Hrun as (root & w2 & _ & Hrun).
    apply bind_ret_inv in Hrun as (element & w3 & _ & Hrun).
    apply bind_ret_inv in Hrun as (SMILE & w4 & _ & Hrun).
    unfold ret in Hrun. injection Hrun as <- _.
    split; [right; now exists SMILE | discriminate].
  - unfold ret in Hrun. injection Hrun as <- _.
    split; [now left | discriminate].
Qed.

(** X13. A [CanonicalSMILES] element without text makes [cid2smile] raise
    [IndexError]: the list of text nodes is indexed without a test. *)
Theorem cid2smile_raises_without_text (fuel : nat) (cid : string)
  (w w' : World) (xml : string) (root element : Element)
  (others : list Element) :
  __safe_urlopen__ fuel (smiles_url cid) w = (Ret (Some xml), w') ->
  etree_fromstring xml = Ret root ->
  findall root smiles_path = element :: others ->
  xpath element ".//text()" = [] ->
  cid2smile fuel cid w = (Raise IndexError, w').
Proof.
  intros Hfetch Hparse Hfind Htext. unfold cid2smile.
  rewrite (bind_run _ _ _ _ _ Hfetch). cbv beta iota.
  run_lift Hparse. rewrite Hfind, seq_index_head, bind_lift_ret. cbv beta.
  now rewrite Htext.
Qed.

(** X14. A search with a hit whose substance record is fetched and parsed:
    [mesh2pid] returns the record with the first id of the search as
    ['sid'] and, as ['cid'], the first text of the first compound-id
    element of the record, or [np.nan] when the record has no such
    element. *)
Theorem mesh2pid_hit (fuel : nat) (mesh : string) (w w1 w2 : World)
  (body xml : string) (j esearchresult count idlist sid : pyval)
  (root : Element) :
  __safe_urlopen__ fuel (esearch_url mesh) w = (Ret (Some body), w1) ->
  json_loads body = Ret j ->
  py_getitem j (PStr "esearchresult") = Ret esearchresult ->
  py_getitem esearchresult (PStr "count") = Ret count ->
  py_eq count (PInt 0) = false ->
  py_getitem esearchresult (PStr "idlist") = Ret idlist ->
  py_getitem idlist (PInt 0) = Ret sid ->
  __safe_urlopen__ fuel (substance_url sid) w1 = (Ret (Some xml), w2) ->
  etree_fromstring xml = Ret root ->
  (forall first others text texts,
     findall root cid_path = first :: others ->
     xpath first "./text()" = text :: texts ->
     mesh2pid fuel mesh w = (Ret (mesh_record mesh sid (PStr text)), w2)) /\
  (findall root cid_path = [] ->
   mesh2pid fuel mesh w = (Ret (mesh_record mesh sid np_nan), w2)).
Proof.
  intros Hfetch Hjson Hres Hcount Hnz Hids Hsid Hsub Hparse.
  assert (mesh2pid fuel mesh w =
          bind (if 0 <? length (findall root cid_path) then
                  bind (lift (seq_index (findall root cid_path) 0))
                    (fun first =>
                       bind (lift (seq_index (xpath first "./text()") 0))
                         (fun text => ret (PStr text)))
                else ret np_nan)
               (fun cid => ret (mesh_record mesh sid cid)) w2) as Hrun.
  { unfold mesh2pid. rewrite (bind_run _ _ _ _ _ Hfetch). cbv beta iota.
    run_lift Hjson. run_lift Hres. run_lift Hcount.
    rewrite Hnz. cbn [negb].
    rewrite bind_lift_ret. cbv beta.
    run_lift Hids. run_lift Hsid.
    rewrite (bind_run _ _ _ _ _ Hsub). cbv beta iota.
    run_lift Hparse. reflexivity. }
  rewrite Hrun. split.
  - intros first others text texts Hfind Htext.
    rewrite Hfind. cbn [length Nat.ltb Nat.leb].
    rewrite seq_index_head. unfold bind, lift, ret. now rewrite Htext.
  - intros Hfind. rewrite Hfind. reflexivity.
Qed.

(** X15. Whatever [mesh2pid] returns is a mapping with the term as its
    only key; the value under the term is a record whose ['mesh'] is the
    term and which has the keys ['sid'] and ['cid']. *)
Theorem mesh2pid_returns_record (fuel : nat) (mesh : string) (w w' : World)
  (v : pyval) :
  mesh2pid fuel mesh w = (Ret v, w') ->
  exists record sid cid,
    py_iter v = Ret [PStr mesh] /\
    py_getitem v (PStr mesh) = Ret record /\
    py_iter record = Ret [PStr "mesh"; PStr "sid"; PStr "cid"] /\
    py_getitem record (PStr "mesh") = Ret (PStr mesh) /\
    py_getitem record (PStr "sid") = Ret sid /\
    py_getitem record (PStr "cid") = Ret cid.
Proof.
  intro Hrun. destruct (mesh2pid_shape _ _ _ _ _ Hrun) as (sid & cid & ->).
  exists (PDict [(PStr "mesh", PStr mesh); (PStr "sid", sid); (PStr "cid", cid)]),
    sid, cid.
  repeat split.
  unfold mesh_record. cbn [py_getitem hashable dict_lookup].
  unfold key_match. cbn [py_eq dyadic_of is_nan].
  now rewrite String.eqb_refl.
Qed.

(** X16. A search answer whose count is not 0 and whose id list is empty
    makes [mesh2pid] raise [IndexError] before any substance is fetched. *)
Theorem mesh2pid_raises_on_empty_idlist (fuel : nat) (mesh : string)
  (w w1 : World) (body : string) (j esearchresult count : pyval) :
  __safe_urlopen__ fuel (esearch_url mesh) w = (Ret (Some body), w1) ->
  json_loads body = Ret j ->
  py_getitem j (PStr "esearchresult") = Ret esearchresult ->
  py_getitem esearchresult (PStr "count") = Ret count ->
  py_eq count (PInt 0) = false ->
  py_getitem esearchresult (PStr "idlist") = Ret (PList []) ->
  mesh2pid fuel mesh w = (Raise IndexError, w1).
Proof.
  intros Hfetch Hjson Hres Hcount Hnz Hids.
  unfold mesh2pid. rewrite (bind_run _ _ _ _ _ Hfetch). cbv beta iota.
  run_lift Hjson. run_lift Hres. run_lift Hcount.
  rewrite Hnz. cbn [negb].
  rewrite bind_lift_ret. cbv beta.
  run_lift Hids. reflexivity.
Qed.

End XmlResolvers.

(** Runs of X12 to X16 on the scripted server. *)
Lemma cid2smile_returns_nan_or_str_witness :
  (PStr "CCO" = np_nan \/ is_str (PStr "CCO")) /\ PStr "CCO" <> PNone.
Proof.
  apply (@cid2smile_returns_nan_or_str (Mock.platform [] smiles_xml) 1 "702"
           (Mock.server [(smiles_url "702", [mkResponse 200 ethanol_body])])
           (Mock.mkWorld [(smiles_url "702", [])] (fun _ => Mock.not_found) 0 1)).
  vm_compute. reflexivity.
Defined.

Lemma cid2smile_raises_without_text_witness :
  @cid2smile (Mock.platform [] [(empty_smiles_body, empty_smiles_xml)]) 1 "702"
    (Mock.server [(smiles_url "702", [mkResponse 200 empty_smiles_body])])
  = (Raise IndexError,
     Mock.mkWorld [(smiles_url "702", [])] (fun _ => Mock.not_found) 0 1).
Proof.
  refine (@cid2smile_raises_without_text
            (Mock.platform [] [(empty_smiles_body, empty_smiles_xml)]) 1 "702"
            (Mock.server [(smiles_url "702", [mkResponse 200 empty_smiles_body])])
            _ empty_smiles_body empty_smiles_xml
            (Mock.XNode (pug "CanonicalSMILES") [] []) [] _ _ _ _);
    vm_compute; reflexivity.
Defined.

Lemma mesh2pid_hit_witness :
  @mesh2pid (Mock.platform esearch_json substance_xmls) 1 "aspirin"
    (aspirin_server substance_body)
  = (Ret (mesh_record "aspirin" (PStr "123") (PStr "2244")),
     aspirin_server_after).
Proof.
  refine (proj1 (@mesh2pid_hit (Mock.platform esearch_json substance_xmls) 1
                   "aspirin" (aspirin_server substance_body)
                   (Mock.mkWorld [(esearch_url "aspirin", []);
                                  (substance_123_url,
                                   [mkResponse 200 substance_body])]
                                 (fun _ => Mock.not_found) 0 1)
                   aspirin_server_after
                   one_hit_body substance_body
                   (esearch_result (PStr "1") [PStr "123"])
                   (PDict [(PStr "count", PStr "1");
                           (PStr "idlist", PList [PStr "123"])])
                   (PStr "1") (PList [PStr "123"]) (PStr "123")
                   substance_xml _ _ _ _ _ _ _ _ _)
                (Mock.XNode (ncbi "PC-CompoundType_id_cid") ["2244"] [])
                [] "2244" [] _ _);
    vm_compute; reflexivity.
Defined.

Example mesh2pid_hit_without_compound :
  fst (@mesh2pid (Mock.platform esearch_json substance_xmls) 1 "aspirin"
         (aspirin_server lone_substance_body))
  = Ret (mesh_record "aspirin" (PStr "123") np_nan).
Proof. vm_compute. reflexivity. Qed.

Lemma mesh2pid_returns_record_witness :
  exists record sid cid,
    py_iter (mesh_record "nonexistent-term" np_nan np_nan)
    = Ret [PStr "nonexistent-term"] /\
    py_getitem (mesh_record "nonexistent-term" np_nan np_nan)
      (PStr "nonexistent-term") = Ret record /\
    py_iter record = Ret [PStr "mesh"; PStr "sid"; PStr "cid"] /\
    py_getitem record (PStr "mesh") = Ret (PStr "nonexistent-term") /\
    py_getitem record (PStr "sid") = Ret sid /\
    py_getitem record (PStr "cid") = Ret cid.
Proof.
  apply (@mesh2pid_returns_record (Mock.platform esearch_json []) 1
           "nonexistent-term" esearch_server
           (Mock.mkWorld
              [(esearch_url "nonexistent-term", []);
               (esearch_url "aspirin", [mkResponse 200 one_hit_body])]
              (fun _ => Mock.not_found) 0 1)).
  vm_compute. reflexivity.
Defined.

Lemma mesh2pid_raises_on_empty_idlist_witness :
  @mesh2pid (Mock.platform string_zero_json []) 1 "nothing"
    (Mock.server [(esearch_url "nothing", [mkResponse 200 string_zero_body])])
  = (Raise IndexError,
     Mock.mkWorld [(esearch_url "nothing", [])] (fun _ => Mock.not_found) 0 1).
Proof.
  refine (@mesh2pid_raises_on_empty_idlist (Mock.platform string_zero_json [])
            1 "nothing"
            (Mock.server [(esearch_url "nothing",
                           [mkResponse 200 string_zero_body])])
            _ string_zero_body (esearch_result (PStr "0") [])
            (PDict [(PStr "count", PStr "0"); (PStr "idlist", PList [])])
            (PStr "0") _ _ _ _ _ _);
    vm_compute; reflexivity.
Defined.

(** * One batch of the property resolvers *)

Lemma dict_update_fresh (d new : list (pyval * pyval)) :
  dict_wf (d ++ new) -> dict_update d new = d ++ new.
Proof.
  unfold dict_update. revert d.
  induction new as [|[k v] new IH]; intros d Hwf; cbn [fold_left fst snd].
  - now rewrite app_nil_r.
  - change (d ++ (k, v) :: new) with (d ++ [(k, v)] ++ new) in *.
    rewrite app_assoc in *.
    destruct (dict_wf_last _ _ _ (dict_wf_front _ _ Hwf)) as (_ & _ & Hfresh).
    rewrite (dict_set_fresh _ _ _ Hfresh). now apply IH.
Qed.

Lemma dict_comprehension_distinct (key value : pyval -> outcome pyval)
  (ps ks vs : list pyval) (acc : list (pyval * pyval)) :
  Forall2 (fun p k => key p = Ret k) ps ks ->
  Forall2 (fun p v => value p = Ret v) ps vs ->
  dict_wf (acc ++ combine ks vs) ->
  dict_comprehension key value ps acc = Ret (acc ++ combine ks vs).
Proof.
  intros Hks. revert vs acc.
  induction Hks as [|p k ps ks Hk _ IH]; intros vs acc Hvs Hwf;
    inversion Hvs as [|? v ? vs' Hv Hvs']; subst.
  - cbn. now rewrite app_nil_r.
  - cbn [dict_comprehension combine] in *. rewrite Hk, Hv. cbn [obind].
    change (acc ++ (k, v) :: combine ks vs')
      with (acc ++ [(k, v)] ++ combine ks vs') in *.
    rewrite app_assoc in *.
    destruct (dict_wf_last _ _ _ (dict_wf_front _ _ Hwf)) as (_ & Hh & Hfresh).
    rewrite Hh, (dict_set_fresh _ _ _ Hfresh). now apply IH.
Qed.

Lemma list_comprehension_values (value : pyval -> outcome pyval)
  (ps vs : list pyval) :
  Forall2 (fun p v => value p = Ret v) ps vs ->
  list_comprehension value ps = Ret vs.
Proof.
  induction 1 as [|p v ps vs Hv _ IH]; [reflexivity|].
  cbn [list_comprehension]. now rewrite Hv, IH.
Qed.

Lemma upacs_values (ps : list pyval) :
  Forall is_dict ps ->
  Forall2 (fun p v => __safe_object_access__ p (PStr "IUPACName") = Ret v)
    ps (map iupac_or_nan ps).
Proof.
  induction 1 as [|p ps [d ->] _ IH]; cbn [map]; constructor; [|assumption].
  apply safe_object_access_dict.
Qed.

Section OneBatch.

Context `{P : Platform}.

Lemma properties_table (body : string) (ps : list pyval) :
  json_loads body = Ret (property_table ps) -> properties (Some body) = Ret ps.
Proof. intro H. unfold properties, json_loads_opt. now rewrite H. Qed.

Lemma one_batch (cids : list Z) :
  cids <> [] -> length cids <= 100 ->
  __divide_list__ (map py_str_int cids) = Ret [map py_str_int cids].
Proof.
  intros Hne Hlen. apply divide_list_one_division.
  - destruct cids; [congruence | discriminate].
  - rewrite length_map. apply num_divisions_small; [|assumption].
    destruct cids; [congruence | cbn; lia].
Qed.

(** X17. [cids2upacs] in list shape, for 1 to 100 identifiers answered by
    a property table of objects: the result has one entry per object of
    the response, in the order of the response, the name of the object or
    [np.nan] if it has none.  Its length is that of the response, not
    that of the request. *)
Theorem cids2upacs_one_batch_list (fuel : nat) (cids : list Z)
  (w w' : World) (body : string) (ps : list pyval) :
  cids <> [] -> length cids <= 100 ->
  __safe_urlopen__ fuel (pubchem_cid_url (map py_str_int cids) "IUPACName") w
  = (Ret (Some body), w') ->
  json_loads body = Ret (property_table ps) ->
  Forall is_dict ps ->
  cids2upacs fuel cids false w = (Ret (PList (map iupac_or_nan ps)), w').
Proof.
  intros Hne Hlen Hfetch Hjson Hdicts. unfold cids2upacs.
  rewrite (one_batch cids Hne Hlen), bind_lift_ret. cbn [for_each].
  erewrite bind_run; [reflexivity|].
  unfold cids2upacs_step. rewrite (bind_run _ _ _ _ _ Hfetch).
  cbv beta iota.
  rewrite (properties_table _ _ Hjson), bind_lift_ret. cbv beta.
  rewrite (list_comprehension_values _ _ _ (upacs_values ps Hdicts)).
  reflexivity.
Qed.

(** X18. [cids2upacs] in dict shape, for 1 to 100 identifiers answered by
    a property table of objects whose ['CID'] values are hashable and
    pairwise different: the result maps each CID of the response, in the
    order of the response, to the name of its object or to [np.nan]. *)
Theorem cids2upacs_one_batch_dict (fuel : nat) (cids : list Z)
  (w w' : World) (body : string) (ps ks : list pyval) :
  cids <> [] -> length cids <= 100 ->
  __safe_urlopen__ fuel (pubchem_cid_url (map py_str_int cids) "IUPACName") w
  = (Ret (Some body), w') ->
  json_loads body = Ret (property_table ps) ->
  Forall is_dict ps ->
  Forall2 (fun p k => py_getitem p (PStr "CID") = Ret k) ps ks ->
  dict_wf (combine ks (map iupac_or_nan ps)) ->
  cids2upacs fuel cids true w
  = (Ret (PDict (combine ks (map iupac_or_nan ps))), w').
Proof.
  intros Hne Hlen Hfetch Hjson Hdicts Hks Hwf. unfold cids2upacs.
  rewrite (one_batch cids Hne Hlen), bind_lift_ret. cbn [for_each].
  erewrite bind_run; [reflexivity|].
  unfold cids2upacs_step. rewrite (bind_run _ _ _ _ _ Hfetch).
  cbv beta iota.
  rewrite (properties_table _ _ Hjson), bind_lift_ret. cbv beta.
  rewrite (dict_comprehension_distinct _ _ ps ks (map iupac_or_nan ps) []
             Hks (upacs_values ps Hdicts) Hwf).
  rewrite bind_lift_ret. cbn [app py_update].
  now rewrite (dict_update_fresh [] _ Hwf).
Qed.

(** X19. In dict shape an object of the response without ['CID'] makes
    [cids2upacs] raise [KeyError]: only the name is read through
    [__safe_object_access__]. *)
Theorem cids2upacs_dict_needs_cid (fuel : nat) (cids : list Z)
  (w w' : World) (body : string) (d : list (pyval * pyval))
  (ps : list pyval) :
  cids <> [] -> length cids <= 100 ->
  __safe_urlopen__ fuel (pubchem_cid_url (map py_str_int cids) "IUPACName") w
  = (Ret (Some body), w') ->
  json_loads body = Ret (property_table (PDict d :: ps)) ->
  dict_lookup (PStr "CID") d = None ->
  cids2upacs fuel cids true w = (Raise KeyError, w').
Proof.
  intros Hne Hlen Hfetch Hjson Hmiss. unfold cids2upacs.
  rewrite (one_batch cids Hne Hlen), bind_lift_ret. cbn [for_each].
  apply bind_raise.
  unfold cids2upacs_step. rewrite (bind_run _ _ _ _ _ Hfetch).
  cbv beta iota.
  rewrite (properties_table _ _ Hjson), bind_lift_ret. cbv beta.
  cbn [dict_comprehension]. now rewrite (getitem_dict_missing _ _ Hmiss).
Qed.

(** X20. [cids2inchis] in list shape, for 1 to 100 identifiers answered
    by a property table whose objects all have the queried property: the
    result is the list of those values in the order of the response. *)
Theorem cids2inchis_one_batch_list (fuel : nat) (cids : list Z) (keys : bool)
  (w w' : World) (body : string) (ps vs : list pyval) :
  cids <> [] -> length cids <= 100 ->
  __safe_urlopen__ fuel
    (pubchem_cid_url (map py_str_int cids) (if keys then "InChIKey" else "InChI"))
    w = (Ret (Some body), w') ->
  json_loads body = Ret (property_table ps) ->
  Forall2 (fun p v =>
             py_getitem p (PStr (if keys then "InChIKey" else "InChI")) = Ret v)
          ps vs ->
  cids2inchis fuel cids false false keys w = (Ret (PList vs), w').
Proof.
  intros Hne Hlen Hfetch Hjson Hvs.
  rewrite cids2inchis_without_prefix. unfold cids2inchis_loop.
  rewrite (one_batch cids Hne Hlen), bind_lift_ret. cbn [for_each].
  erewrite bind_run; [reflexivity|].
  unfold cids2inchis_step. rewrite (bind_run _ _ _ _ _ Hfetch).
  cbv beta iota.
  rewrite (properties_table _ _ Hjson), bind_lift_ret. cbv beta.
  rewrite (list_comprehension_values _ _ _ Hvs).
  reflexivity.
Qed.

End OneBatch.

(** Runs of X17 to X20 on the scripted server. *)
Lemma names_objects_are_dicts : Forall is_dict names_objects.
Proof. repeat constructor; eexists; reflexivity. Qed.

Lemma cids2upacs_one_batch_list_witness :
  @cids2upacs (Mock.platform names_json []) 1 [1%Z; 2%Z] false names_server
  = (Ret (PList [PStr "ethanol"; np_nan]), names_server_after_both).
Proof.
  refine (@cids2upacs_one_batch_list (Mock.platform names_json []) 1
            [1%Z; 2%Z] names_server names_server_after_both names_body
            names_objects _ _ _ _ names_objects_are_dicts).
  - discriminate.
  - cbn. lia.
  - vm_compute. reflexivity.
  - reflexivity.
Defined.

Lemma cids2upacs_one_batch_dict_witness :
  @cids2upacs (Mock.platform names_json []) 1 [1%Z; 2%Z] true names_server
  = (Ret (PDict [(PInt 1, PStr "ethanol"); (PInt 2, np_nan)]),
     names_server_after_both).
Proof.
  refine (@cids2upacs_one_batch_dict (Mock.platform names_json []) 1
            [1%Z; 2%Z] names_server names_server_after_both names_body
            names_objects [PInt 1; PInt 2] _ _ _ _ names_objects_are_dicts _ _).
  - discriminate.
  - cbn. lia.
  - vm_compute. reflexivity.
  - reflexivity.
  - repeat constructor.
  - change (dict_wf (([] ++ [(PInt 1, PStr "ethanol")]) ++ [(PInt 2, np_nan)])).
    repeat constructor.
Defined.

(** Two objects with the CID NaN are one key: the second name replaces
    the first, as in the dict the code builds. *)
Example cids2upacs_dict_nan_keys :
  fst (@cids2upacs (Mock.platform nan_keys_json []) 1 [1%Z; 2%Z] true
         (Mock.server [(pubchem_cid_url ["1"; "2"] "IUPACName",
                        [mkResponse 200 nan_keys_body])]))
  = Ret (PDict [(PFloat FNan, PStr "b")]).
Proof. vm_compute. reflexivity. Qed.

Lemma nan_keys_not_wf (v v' : pyval) :
  ~ dict_wf [(PFloat FNan, v); (PFloat FNan, v')].
Proof.
  change (~ dict_wf ([(PFloat FNan, v)] ++ [(PFloat FNan, v')])).
  intro H. apply dict_wf_last in H as (_ & _ & Hfresh).
  inversion Hfresh as [|? ? Hk _]. discriminate.
Qed.

Lemma cids2upacs_dict_needs_cid_witness :
  @cids2upacs (Mock.platform names_json []) 1 [962%Z] true names_server
  = (Raise KeyError, names_server_after_962).
Proof.
  refine (@cids2upacs_dict_needs_cid (Mock.platform names_json []) 1
            [962%Z] names_server names_server_after_962 anonymous_body
            [(PStr "IUPACName", PStr "oxidane")] [] _ _ _ _ _).
  - discriminate.
  - cbn. lia.
  - vm_compute. reflexivity.
  - reflexivity.
  - reflexivity.
Defined.

Example cids2upacs_list_without_cid :
  @cids2upacs (Mock.platform names_json []) 1 [962%Z] false names_server
  = (Ret (PList [PStr "oxidane"]), names_server_after_962).
Proof. vm_compute. reflexivity. Qed.

Lemma cids2inchis_one_batch_list_witness :
  @cids2inchis (Mock.platform inchikey_json []) 1 [1%Z; 2%Z] false false true
    inchikey_server
  = (Ret (PList [PStr "ABCDEF-UHFFFAOYSA-N"; PStr "XYZ"]),
     inchikey_server_after_both).
Proof.
  refine (@cids2inchis_one_batch_list (Mock.platform inchikey_json []) 1
            [1%Z; 2%Z] true inchikey_server inchikey_server_after_both
            inchikey_body
            [PDict [(PStr "CID", PInt 1);
                    (PStr "InChIKey", PStr "ABCDEF-UHFFFAOYSA-N")];
             PDict [(PStr "CID", PInt 2); (PStr "InChIKey", PStr "XYZ")]]
            _ _ _ _ _ _).
  - discriminate.
  - cbn. lia.
  - vm_compute. reflexivity.
  - reflexivity.
  - repeat constructor.
Defined.

(** * Several batches *)

Section Batches.

Context `{P : Platform}.

Lemma upacs_step_list_inv (fuel : nat) (acc : list pyval) (ids : list string)
  (w w' : World) (acc' : pyval) :
  cids2upacs_step fuel false (PList acc) ids w = (Ret acc', w') ->
  exists r ps vs,
    __safe_urlopen__ fuel (pubchem_cid_url ids "IUPACName") w = (Ret r, w') /\
    properties r = Ret ps /\
    list_comprehension (fun p => __safe_object_access__ p (PStr "IUPACName")) ps
    = Ret vs /\
    acc' = PList (acc ++ vs).
Proof.
  unfold cids2upacs_step. intro Hrun.
  apply bind_ret_inv in Hrun as (r & w1 & Hfetch & Hrun).
  apply bind_ret_inv in Hrun as (ps & w2 & Hps & Hrun).
  apply bind_ret_inv in Hrun as (vs & w3 & Hvs & Hrun).
  apply lift_ret_inv in Hps as [Hps ->].
  apply lift_ret_inv in Hvs as [Hvs ->].
  apply lift_ret_inv in Hrun as [Hrun ->].
  cbn in Hrun. injection Hrun as <-.
  now exists r, ps, vs.
Qed.

Lemma upacs_step_list_run (fuel : nat) (acc : list pyval) (ids : list string)
  (w w' : World) (r : option string) (ps vs : list pyval) :
  __safe_urlopen__ fuel (pubchem_cid_url ids "IUPACName") w = (Ret r, w') ->
  properties r = Ret ps ->
  list_comprehension (fun p => __safe_object_access__ p (PStr "IUPACName")) ps
  = Ret vs ->
  cids2upacs_step fuel false (PList acc) ids w = (Ret (PList (acc ++ vs)), w').
Proof.
  intros Hfetch Hps Hvs. unfold cids2upacs_step.
  rewrite (bind_run _ _ _ _ _ Hfetch). cbv beta iota.
  run_lift Hps. run_lift Hvs. reflexivity.
Qed.

Lemma upacs_loop_list (fuel : nat) (chunks : list (list string))
  (acc : list pyval) (w w' : World) (v : pyval) :
  for_each chunks (cids2upacs_step fuel false) (PList acc) w = (Ret v, w') <->
  exists vss, upacs_batches fuel w chunks vss w' /\ v = PList (acc ++ concat vss).
Proof.
  revert acc w. induction chunks as [|ids chunks IH]; intros acc w.
  - cbn [for_each]. unfold ret. split.
    + intros [= <- <-]. exists []. split; [constructor|].
      cbn. now rewrite app_nil_r.
    + intros (vss & Hb & ->). inversion Hb; subst.
      cbn. now rewrite app_nil_r.
  - cbn [for_each]. split.
    + intro Hrun. apply bind_ret_inv in Hrun as (acc1 & w1 & Hstep & Hrun).
      apply upacs_step_list_inv in Hstep as (r & ps & vs & Hf & Hps & Hvs & ->).
      apply IH in Hrun as (vss & Hb & ->).
      exists (vs :: vss). split; [econstructor; eassumption|].
      cbn [concat]. now rewrite app_assoc.
    + intros (vss & Hb & ->).
      inversion Hb as [|? w1 ? ? ? r ps vs vss' Hf Hps Hvs Hrest]; subst.
      rewrite (bind_run _ _ _ _ _ (upacs_step_list_run _ acc _ _ _ _ _ _ Hf Hps Hvs)).
      apply IH. exists vss'. split; [assumption|].
      cbn [concat]. now rewrite app_assoc.
Qed.

(** X21. [cids2upacs] in list shape returns exactly when every batch, in
    the order of the batcher, is fetched, decoded and read without an
    exception; the result is then the values of the batches one after
    the other, and the world is the one after the last fetch. *)
Theorem cids2upacs_list_is_concat (fuel : nat) (cids : list Z)
  (chunks : list (list string)) (w w' : World) (v : pyval) :
  __divide_list__ (map py_str_int cids) = Ret chunks ->
  cids2upacs fuel cids false w = (Ret v, w') <->
  exists vss, upacs_batches fuel w chunks vss w' /\ v = PList (concat vss).
Proof.
  intro Hdiv. unfold cids2upacs. rewrite Hdiv, bind_lift_ret.
  apply (upacs_loop_list fuel chunks [] w w' v).
Qed.

End Batches.

(** A run of X21: 101 identifiers, two batches, three values. *)
Lemma cids2upacs_list_is_concat_witness :
  @cids2upacs (Mock.platform batches_json []) 1 many_cids false batches_server
  = (Ret (PList [PStr "ethanol"; np_nan; PStr "oxidane"]),
     batches_server_after 2 [] []).
Proof.
  refine (proj2 (@cids2upacs_list_is_concat (Mock.platform batches_json []) 1
                   many_cids
                   [map py_str_int (firstn 51 many_cids);
                    map py_str_int (skipn 51 many_cids)]
                   batches_server (batches_server_after 2 [] []) _ _) _).
  - vm_compute. reflexivity.
  - exists [[PStr "ethanol"]; [np_nan; PStr "oxidane"]].
    split; [|reflexivity].
    apply (@upacs_batches_cons (Mock.platform batches_json []) 1
             batches_server
             (batches_server_after 1 [] [mkResponse 200 second_batch_body])
             (batches_server_after 2 [] []) _ _
             (Some first_batch_body)
             [PDict [(PStr "CID", PInt 1); (PStr "IUPACName", PStr "ethanol")]]);
      [vm_compute; reflexivity | reflexivity | reflexivity |].
    apply (@upacs_batches_cons (Mock.platform batches_json []) 1
             (batches_server_after 1 [] [mkResponse 200 second_batch_body])
             (batches_server_after 2 [] [])
             (batches_server_after 2 [] []) _ _
             (Some second_batch_body)
             [PDict [(PStr "CID", PInt 52)];
              PDict [(PStr "CID", PInt 53); (PStr "IUPACName", PStr "oxidane")]]);
      [vm_compute; reflexivity | reflexivity | reflexivity |].
    apply upacs_batches_nil.
Defined.
